(** * Monads-in-typescript: a shallow embedding of the container library

    The TypeScript sources define six monadic containers (Option, Either,
    Try, IO, Writer, List) and a tagged-union matcher.  Every combinator
    takes caller-supplied functions, and a JavaScript function may mutate
    state that it closes over and may throw.  Both are observable through
    the combinators (Try catches, Option and Either do not, IO defers), so
    caller functions are embedded as computations of the monad [Eff]:
    explicit state passing plus a completion that is either a normal value
    or a thrown value. *)

From Stdlib Require Import ZArith Lia.
From stdpp Require Import base strings gmap list pretty.

Set Implicit Arguments.
Set Default Proof Using "Type".

(** ** Effects of JavaScript code: state and exceptions *)

Module Eff.

(** The completion of a call: it returns [x] or throws [e]. *)
Inductive Completion (E X : Type) : Type :=
| Normal (x : X)
| Throw (e : E).
Arguments Normal {E X} x.
Arguments Throw {E X} e.

(** Values a call can throw: the two errors the host raises in this
    library ([assert] failing, calling something that is not a function)
    and whatever a caller function throws itself. *)
Inductive Exn (V : Type) : Type :=
| AssertionError (message : string)
| TypeError (message : string)
| Thrown (v : V).
Arguments AssertionError {V} message.
Arguments TypeError {V} message.
Arguments Thrown {V} v.

(** A computation over a store [St] that may throw values of type [E]. *)
Definition Eff (St E X : Type) : Type := St -> Completion E X * St.

Section Ops.
Context {St E : Type}.

(** [return x] *)
Definition ret {X} (x : X) : Eff St E X := fun s => (Normal x, s).

(** [throw e] *)
Definition throw {X} (e : E) : Eff St E X := fun s => (Throw e, s).

(** Sequencing: a throw in [c] skips [k], the store written so far stays. *)
Definition seq {X Y} (c : Eff St E X) (k : X -> Eff St E Y) : Eff St E Y :=
  fun s =>
    match c s with
    | (Normal x, s') => k x s'
    | (Throw e, s') => (Throw e, s')
    end.

(** [try { body } catch (err) { handler(err) }] *)
Definition try_catch {X} (body : Eff St E X) (handler : E -> Eff St E X)
  : Eff St E X :=
  fun s =>
    match body s with
    | (Normal x, s') => (Normal x, s')
    | (Throw e, s') => handler e s'
    end.

(** Running [c] and then [c] again, as two statements in a row. *)
Definition twice {X} (c : Eff St E X) : Eff St E X :=
  seq c (fun _ => c).

(** A function that neither touches the store nor throws. *)
Definition pure_fn {A B} (f : A -> B) : A -> Eff St E B :=
  fun a => ret (f a).
End Ops.

(** Node's [assert(cond, message)]. *)
Definition assert {St V} (cond : bool) (message : string)
  : Eff St (Exn V) unit :=
  if cond then ret tt else throw (AssertionError message).

End Eff.
Export Eff.

Notation "'let*' x := c 'in' k" := (seq c (fun x => k))
  (at level 10, x name, c at level 100, k at level 200).

(** ** List.ts: the persistent singly linked list *)

Module ListM.

(** [Pair] holds a head and a tail, [Empty] is the terminal. *)
Inductive List (T : Type) : Type :=
| Pair (head : T) (tail : List T)
| Empty.
Arguments Empty {T}.

(** The local [concat] of [Pair.bind]. *)
Fixpoint concat {D} (l1 l2 : List D) : List D :=
  match l1 with
  | Empty => l2
  | Pair head tail => Pair head (concat tail l2)
  end.

(** [Pair.isEmpty] and [Empty.isEmpty], each as written. *)
Definition isEmpty {T} (this : List T) : bool :=
  match this with
  | Pair _ _ => false
  | Empty => false
  end.

Section Methods.
Context {St E : Type}.

(** [match({ifPair, ifEmpty})] *)
Definition match_ {T D} (this : List T)
    (ifPair : T -> List T -> Eff St E D) (ifEmpty : Eff St E D)
  : Eff St E D :=
  match this with
  | Pair head tail => ifPair head tail
  | Empty => ifEmpty
  end.

(** [bind]: [concat(func(this.head), this.tail.bind(func))]; the
    arguments are evaluated left to right. *)
Fixpoint bind {T D} (this : List T) (func : T -> Eff St E (List D))
  : Eff St E (List D) :=
  match this with
  | Pair head tail =>
      let* l1 := func head in
      let* l2 := bind tail func in
      ret (concat l1 l2)
  | Empty => ret Empty
  end.

(** [map] *)
Fixpoint map {T D} (this : List T) (func : T -> Eff St E D)
  : Eff St E (List D) :=
  match this with
  | Pair head tail =>
      let* h := func head in
      let* t := map tail func in
      ret (Pair h t)
  | Empty => ret Empty
  end.

(** [filter] *)
Fixpoint filter {T} (this : List T) (func : T -> Eff St E bool)
  : Eff St E (List T) :=
  match this with
  | Pair head tail =>
      let* b := func head in
      if b then (let* t := filter tail func in ret (Pair head t))
      else filter tail func
  | Empty => ret Empty
  end.

(** [foldLeft(seed)(func)] *)
Fixpoint foldLeft {T D} (this : List T) (seed : D)
    (func : D -> T -> Eff St E D) : Eff St E D :=
  match this with
  | Pair head tail =>
      let* acc := func seed head in
      foldLeft tail acc func
  | Empty => ret seed
  end.

(** [foldRight(seed)(func)]: the tail is folded first, then
    [func(folded, this.head)]. *)
Fixpoint foldRight {T D} (this : List T) (seed : D)
    (func : D -> T -> Eff St E D) : Eff St E D :=
  match this with
  | Pair head tail =>
      let* acc := foldRight tail seed func in
      func acc head
  | Empty => ret seed
  end.
End Methods.

(** The elements of a list, head first. *)
Fixpoint to_list {T} (l : List T) : list T :=
  match l with
  | Pair head tail => head :: to_list tail
  | Empty => []
  end.

Fixpoint of_list {T} (l : list T) : List T :=
  match l with
  | [] => Empty
  | x :: xs => Pair x (of_list xs)
  end.

(** [f(x1) ++ ... ++ f(xn)], the value of [bind] for a function without
    effects (see [bind_pure_fn]). *)
Fixpoint flatten {T D} (f : T -> List D) (l : List T) : List D :=
  match l with
  | Pair head tail => concat (f head) (flatten f tail)
  | Empty => Empty
  end.

End ListM.

(** ** Option.ts *)

Module OptionM.

Inductive Option (A : Type) : Type :=
| Some (value : A)
| None.
Arguments None {A}.

(** [Option.pure] *)
Definition pure {A} (value : A) : Option A := Some value.

Section Methods.
Context {St E : Type}.

(** [Some.bind] applies [func]; [None.bind] returns the [None]. *)
Definition bind {A B} (this : Option A) (func : A -> Eff St E (Option B))
  : Eff St E (Option B) :=
  match this with
  | Some value => func value
  | None => ret None
  end.

(** [match({ifSome, ifNone})] *)
Definition match_ {A D} (this : Option A)
    (ifSome : A -> Eff St E D) (ifNone : Eff St E D) : Eff St E D :=
  match this with
  | Some value => ifSome value
  | None => ifNone
  end.

(** [map(func)] is [this.bind(value => Option.pure(func(value)))]. *)
Definition map {A B} (this : Option A) (func : A -> Eff St E B)
  : Eff St E (Option B) :=
  bind this (fun value => let* b := func value in ret (pure b)).

(** [orElse(fallback)] *)
Definition orElse {A} (this : Option A) (fallback : Eff St E (Option A))
  : Eff St E (Option A) :=
  match_ this (fun _value => ret this) fallback.
End Methods.

(** [getOrElse(defaultValue)] *)
Definition getOrElse {A} (this : Option A) (defaultValue : A) : A :=
  match this with
  | Some value => value
  | None => defaultValue
  end.

(** A value of type [A | null | undefined]. *)
Inductive Nullable (A : Type) : Type :=
| null
| undefined
| present (value : A).
Arguments null {A}.
Arguments undefined {A}.
Arguments present {A} value.

(** [Option.fromNullable(value)]: [value == null] holds of [null] and of
    [undefined], and of nothing else. *)
Definition fromNullable {A} (value : Nullable A) : Option A :=
  match value with
  | null | undefined => None
  | present v => pure v
  end.

(** [isSome(opt)] is [opt instanceof Some], [isNone(opt)] is
    [opt instanceof None]. *)
Definition isSome {A} (opt : Option A) : bool :=
  match opt with
  | Some _ => true
  | None => false
  end.

Definition isNone {A} (opt : Option A) : bool :=
  match opt with
  | Some _ => false
  | None => true
  end.

End OptionM.

(** ** Either.ts *)

Module EitherM.

Inductive Either (L R : Type) : Type :=
| Right (value : R)
| Left (value : L).
Arguments Right {L R} value.
Arguments Left {L R} value.

(** [Either.asRight], [Either.asLeft] *)
Definition asRight {L R} (value : R) : Either L R := Right value.
Definition asLeft {L R} (value : L) : Either L R := Left value.

Section Methods.
Context {St E : Type}.

(** [Right.bind] applies [func]; [Left.bind] is
    [new Left<L, T>(this.value)]. *)
Definition bind {L R T} (this : Either L R)
    (func : R -> Eff St E (Either L T)) : Eff St E (Either L T) :=
  match this with
  | Right value => func value
  | Left value => ret (Left value)
  end.

(** [map(func)] is [this.bind(value => Either.asRight(func(value)))]. *)
Definition map {L R T} (this : Either L R) (func : R -> Eff St E T)
  : Eff St E (Either L T) :=
  bind this (fun value => let* t := func value in ret (asRight t)).

(** [orElse(fallback)] *)
Definition orElse {L R} (this : Either L R)
    (fallback : Eff St E (Either L R)) : Eff St E (Either L R) :=
  match this with
  | Right _ => ret this
  | Left _ => fallback
  end.

(** [ensure(left)(predicate)] *)
Definition ensure {L R} (this : Either L R) (left : L)
    (predicate : R -> Eff St E bool) : Eff St E (Either L R) :=
  match this with
  | Right value =>
      let* ok := predicate value in
      ret (if ok then this else Left left)
  | Left _ => ret this
  end.
End Methods.

(** [getOrElse(defaultValue)] *)
Definition getOrElse {L R} (this : Either L R) (defaultValue : R) : R :=
  match this with
  | Right value => value
  | Left _ => defaultValue
  end.

(** [Either.fromOption(opt, left)] *)
Definition fromOption {L R} (opt : OptionM.Option R) (left : L)
  : Either L R :=
  match opt with
  | OptionM.Some value => asRight value
  | OptionM.None => asLeft left
  end.

(** [isLeft(opt)] is [opt instanceof Left], [isRight(opt)] is
    [opt instanceof Right]. *)
Definition isLeft {L R} (opt : Either L R) : bool :=
  match opt with
  | Right _ => false
  | Left _ => true
  end.

Definition isRight {L R} (opt : Either L R) : bool :=
  match opt with
  | Right _ => true
  | Left _ => false
  end.

End EitherM.

(** ** Try.ts *)

Module TryM.

(** [Failure] carries a caught value, so its payload type is the type of
    the values that can be thrown ([err as E] is an unchecked cast). *)
Inductive Try (A E : Type) : Type :=
| Success (value : A)
| Failure (error : E).
Arguments Success {A E} value.
Arguments Failure {A E} error.

Section Methods.
Context {St E : Type}.

(** [bind]: [Success] runs [func] under [try]/[catch]. *)
Definition bind {A B} (this : Try A E) (func : A -> Eff St E (Try B E))
  : Eff St E (Try B E) :=
  match this with
  | Success value =>
      try_catch (func value) (fun err => ret (Failure err))
  | Failure error => ret (Failure error)
  end.

(** [map]: [new Success(func(this.value))] under [try]/[catch]. *)
Definition map {A B} (this : Try A E) (func : A -> Eff St E B)
  : Eff St E (Try B E) :=
  match this with
  | Success value =>
      try_catch (let* b := func value in ret (Success b))
                (fun err => ret (Failure err))
  | Failure error => ret (Failure error)
  end.

(** [recover] *)
Definition recover {A} (this : Try A E) (func : E -> Eff St E A)
  : Eff St E (Try A E) :=
  match this with
  | Success _ => ret this
  | Failure error =>
      try_catch (let* a := func error in ret (Success a))
                (fun err => ret (Failure err))
  end.

(** [recoverWith] *)
Definition recoverWith {A} (this : Try A E)
    (func : E -> Eff St E (Try A E)) : Eff St E (Try A E) :=
  match this with
  | Success _ => ret this
  | Failure error =>
      try_catch (func error) (fun err => ret (Failure err))
  end.
End Methods.

(** [getOrElse(defaultValue)] *)
Definition getOrElse {A E} (this : Try A E) (defaultValue : A) : A :=
  match this with
  | Success value => value
  | Failure _ => defaultValue
  end.

End TryM.

(** ** IO.ts *)

Module IOM.

(** An [IO] holds the deferred nullary function [effect]. *)
Record IO (St E A : Type) : Type := mkIO { effect : Eff St E A }.
Arguments mkIO {St E A} effect.
Arguments effect {St E A} _.

Section Methods.
Context {St E : Type}.

(** [runUnsafe()] calls [this.effect()]. *)
Definition runUnsafe {A} (this : IO St E A) : Eff St E A := effect this.

(** [IO.of(value)] is [new IO(() => value)]. *)
Definition of_ {A} (value : A) : IO St E A := mkIO (ret value).

(** [IO.from(thunk)] is [new IO(thunk)]. *)
Definition from {A} (thunk : Eff St E A) : Eff St E (IO St E A) :=
  ret (mkIO thunk).

(** [bind(func)] is
    [new IO(() => func(this.effect()).runUnsafe())]. *)
Definition bind {A B} (this : IO St E A)
    (func : A -> Eff St E (IO St E B)) : Eff St E (IO St E B) :=
  ret (mkIO (let* a := effect this in
             let* next := func a in
             runUnsafe next)).

(** [map(func)] is [new IO(() => func(this.effect()))]. *)
Definition map {A B} (this : IO St E A) (func : A -> Eff St E B)
  : Eff St E (IO St E B) :=
  ret (mkIO (let* a := effect this in func a)).
End Methods.

(** The program of the laziness test: the store is the variable [a] that
    the callback increments.
    [IO.of(43).bind((value) => { a += 1; return IO.of(value); })] *)
Definition increment {E} (value : Z) : Eff Z E (IO Z E Z) :=
  fun a => (Normal (of_ value), (a + 1)%Z).

Definition program {E} (v : Z) : Eff Z E (IO Z E Z) :=
  bind (of_ v) increment.

End IOM.

(** ** Monoid.ts *)

Module MonoidM.

(** A monoid is an object [{ combine, pure }].  Objects have an identity,
    which [===] compares; [ref] is that identity (the address of the
    object), the other two fields are the object's properties. *)
Record Monoid (A : Type) : Type := mkMonoid {
  ref : nat;
  combine : A -> A -> A;
  pure : A
}.
Arguments mkMonoid {A} ref combine pure.
Arguments ref {A} _.
Arguments combine {A} _ _ _.
Arguments pure {A} _.

(** [m1 === m2] on two monoid objects. *)
Definition same {A} (m1 m2 : Monoid A) : bool := Nat.eqb (ref m1) (ref m2).

(** The module-level constant [StringConcatMonoid] ([StringLog] in the
    first revision of Writer.ts): one object, at address 0. *)
Definition StringConcatMonoid : Monoid string :=
  mkMonoid 0 (fun x y => x +:+ y) "".

(** [ListMonoid<T>()] builds a new object on every call; [fresh] is the
    address the call allocates (never 0, never one handed out before). *)
Definition ListMonoid {T} (fresh : nat) : Monoid (list T) :=
  mkMonoid fresh (fun x y => x ++ y) [].

(** The monoid laws the interface asks of its implementations. *)
Record Lawful {A} (m : Monoid A) : Prop := {
  combine_pure_l : forall x, combine m (pure m) x = x;
  combine_pure_r : forall x, combine m x (pure m) = x;
  combine_assoc : forall x y z,
    combine m (combine m x y) z = combine m x (combine m y z)
}.

End MonoidM.

(** ** Writer.ts, first revision: [bind] takes [func(value)] *)

Module WriterLegacy.
Import MonoidM.

Record Writer (W A : Type) : Type := mkWriter {
  value : A;
  log : W;
  monoid : Monoid W
}.
Arguments mkWriter {W A} value log monoid.
Arguments value {W A} _.
Arguments log {W A} _.
Arguments monoid {W A} _.

Section Methods.
Context {St E : Type}.

(** [bind]: no check on [result.monoid]. *)
Definition bind {W A B} (this : Writer W A)
    (func : A -> Eff St E (Writer W B)) : Eff St E (Writer W B) :=
  let* result := func (value this) in
  let log' := combine (monoid this) (log this) (log result) in
  ret (mkWriter (value result) log' (monoid this)).

(** [map] *)
Definition map {W A B} (this : Writer W A) (func : A -> Eff St E B)
  : Eff St E (Writer W B) :=
  let* b := func (value this) in
  ret (mkWriter b (log this) (monoid this)).
End Methods.

(** [Writer.of(value, monoid)] *)
Definition of_ {W A} (value : A) (monoid : Monoid W) : Writer W A :=
  mkWriter value (pure monoid) monoid.

(** [tell(log)] *)
Definition tell {W A} (this : Writer W A) (entry : W) : Writer W A :=
  let newLog := combine (monoid this) (log this) entry in
  mkWriter (value this) newLog (monoid this).

End WriterLegacy.

(** ** Writer.ts, current revision: [bind] takes [func(value, make)] and
    asserts that the result is on the receiver's monoid *)

Module WriterM.
Import MonoidM.

Record Writer (W A : Type) : Type := mkWriter {
  value : A;
  log : W;
  monoid : Monoid W
}.
Arguments mkWriter {W A} value log monoid.
Arguments value {W A} _.
Arguments log {W A} _.
Arguments monoid {W A} _.

(** The type of the helper [make] handed to the continuation. *)
Definition Make (W : Type) : Type := forall T : Type, T -> W -> Writer W T.

(** The closure [make] of [bind]:
    [(value, log) => new Writer(value, log, this.monoid)]. *)
Definition make {W A} (this : Writer W A) : Make W :=
  fun T value log => mkWriter value log (monoid this).

Section Methods.
Context {St V : Type}.

(** [bind(func)] *)
Definition bind {W A B} (this : Writer W A)
    (func : A -> Make W -> Eff St (Exn V) (Writer W B))
  : Eff St (Exn V) (Writer W B) :=
  let* result := func (value this) (make this) in
  let* _ok := assert (same (monoid result) (monoid this))
                     "Must have the same monoid" in
  let combinedLog := combine (monoid this) (log this) (log result) in
  ret (mkWriter (value result) combinedLog (monoid this)).

(** [map(func)] *)
Definition map {W A B} (this : Writer W A)
    (func : A -> Eff St (Exn V) B) : Eff St (Exn V) (Writer W B) :=
  let* b := func (value this) in
  ret (mkWriter b (log this) (monoid this)).
End Methods.

(** [Writer.of(value, monoid)] *)
Definition of_ {W A} (value : A) (monoid : Monoid W) : Writer W A :=
  mkWriter value (pure monoid) monoid.

(** [tell(log)] *)
Definition tell {W A} (this : Writer W A) (entry : W) : Writer W A :=
  let newLog := combine (monoid this) (log this) entry in
  mkWriter (value this) newLog (monoid this).

(** [run()] *)
Definition run {W A} (this : Writer W A) : A * W := (value this, log this).

(** The factorial of the Writer test suite.
    [temp(n, value)] is the template string [Fac(<n>)=<value>]. *)
Definition temp (n : Z) (value : string) : string :=
  "Fac(" +:+ pretty n +:+ ")=" +:+ value.

(** [factorial(n)], for the positive integers [n] (on the others the
    source never reaches [n == 1]).  [fresh] is the address of the object
    that the one call [ListMonoid<string>()] allocates. *)
Definition factorial {St V} (fresh : nat) (n : positive)
  : Eff St (Exn V) (Writer (list string) Z) :=
  Pos.peano_rect
    (fun _ => Eff St (Exn V) (Writer (list string) Z))
    (ret (tell (of_ 1%Z (ListMonoid fresh)) [temp 1 "1"]))
    (fun p rec =>
       let n := Z.pos (Pos.succ p) in
       let* before := rec in
       bind before (fun prev make =>
         ret (make Z (prev * n)%Z [temp n (pretty (prev * n)%Z)])))
    n.

(** The example of [bind]'s documentation:
    [Writer.of(2, StringConcatMonoid)
       .bind((value, make) => make(value + 3, "Added 3\n"))
       .bind((value, make) => make(value * 2, "Doubled\n"))],
    with the line feed written as the character 10. *)
Definition lf : string := String (Ascii.ascii_of_nat 10) "".

Definition doc_example {St V} : Eff St (Exn V) (Writer string Z) :=
  let* w1 := bind (of_ 2%Z StringConcatMonoid)
               (fun value make => ret (make Z (value + 3)%Z ("Added 3" +:+ lf))) in
  bind w1 (fun value make => ret (make Z (value * 2)%Z ("Doubled" +:+ lf))).

(** A chain of [bind]s, [w.bind(f1).bind(f2)...bind(fn)], whose [i]-th
    continuation is [(value, make) => make(h_i(value), l_i(value))]. *)
Definition step {St V W A} (h : A -> A) (l : A -> W)
  : A -> Make W -> Eff St (Exn V) (Writer W A) :=
  fun value make => ret (make A (h value) (l value)).

Fixpoint chain {St V W A} (w : Writer W A) (steps : list ((A -> A) * (A -> W)))
  : Eff St (Exn V) (Writer W A) :=
  match steps with
  | [] => ret w
  | (h, l) :: rest => let* w' := bind w (step h l) in chain w' rest
  end.

(** The value and the log after such a chain, from the value [v] and the
    log [acc]: every entry goes to the right of what was there. *)
Fixpoint after_chain {W A} (m : Monoid W) (v : A) (acc : W)
    (steps : list ((A -> A) * (A -> W))) : A * W :=
  match steps with
  | [] => (v, acc)
  | (h, l) :: rest => after_chain m (h v) (combine m acc (l v)) rest
  end.

(** The factorial of 5 as five [bind]s on the string monoid, from
    [Writer.of(1, StringConcatMonoid)]: the [n]-th continuation is
    [(prev, make) => make(prev * n, temp(n, prev * n))]. *)
Definition factorial_steps : list ((Z -> Z) * (Z -> string)) :=
  List.map (fun n : Z =>
              (fun prev => (prev * n)%Z,
               fun prev => temp n (pretty (prev * n)%Z)))
           [1; 2; 3; 4; 5]%Z.

(** The loop of the test "Writer Add Logs":
    [for (let msg of arr) writer = writer.tell(msg)]. *)
Definition tell_all {W A} (writer : Writer W A) (arr : list W) : Writer W A :=
  fold_left (fun w msg => tell w msg) arr writer.

(** [arr.reduce((a, b) => a + b, "")], the log that test expects. *)
Definition reduce_concat (arr : list string) : string :=
  fold_left (fun a b => a +:+ b) arr "".

End WriterM.

(** ** ADTs.ts *)

Module ADTs.

(** The value of a property: [undefined], a string, or a value of another
    kind. *)
Inductive Val (P : Type) : Type :=
| Undefined
| Str (s : string)
| Other (p : P).
Arguments Undefined {P}.
Arguments Str {P} s.
Arguments Other {P} p.

(** An object is the map of its own enumerable properties,
    [gmap string (Val P)].

    The function that the proxy of [makeConstructors] returns for the
    property [key]: [(args) => ({ _type: key, ...args })].  The properties
    of [args] are written after [_type], so a [_type] that [args] carries
    replaces [key]. *)
Definition makeConstructors {P} (key : string) (args : gmap string (Val P))
  : gmap string (Val P) :=
  args ∪ {[ "_type" := Str key ]}.

Section Match.
Context {St V P D : Type}.

(** The property key that the host makes of a value that is neither
    [undefined] nor a string (a number, a boolean, [null], ...). *)
Variable key_of : P -> string.

(** The key that [handlers[v]] looks up. *)
Definition property_key (v : Val P) : string :=
  match v with
  | Undefined => "undefined"
  | Str s => s
  | Other p => key_of p
  end.

(** [value._type] as a property key; a [value] without the property reads
    [undefined]. *)
Definition discriminant (value : gmap string (Val P)) : string :=
  property_key (default Undefined (value !! "_type")).

(** What an object inherits under a name: a function, which a call
    [handlers[k](value)] runs with [this = handlers] and the argument
    [value], or a value that cannot be called. *)
Inductive Member : Type :=
| Callable (call : gmap string (gmap string (Val P) -> Eff St (Exn V) D) ->
                   gmap string (Val P) -> Eff St (Exn V) D)
| NotCallable.

(** [match(value, handlers)] is [handlers[value._type](value)].  The
    property access finds the own property of [handlers] when there is one
    and the member that [handlers] inherits otherwise ([inherited]: for an
    object literal, the members of [Object.prototype]); calling what is not
    a function is a [TypeError]. *)
Definition match_ (inherited : gmap string Member)
    (value : gmap string (Val P))
    (handlers : gmap string (gmap string (Val P) -> Eff St (Exn V) D))
  : Eff St (Exn V) D :=
  match handlers !! discriminant value with
  | Some handler => handler value
  | None =>
      match inherited !! discriminant value with
      | Some (Callable call) => call handlers value
      | Some NotCallable | None =>
          throw (TypeError "handlers[value._type] is not a function")
      end
  end.
End Match.

(** The member [toString] of [Object.prototype], which every object
    literal inherits: called on an ordinary object it answers
    ["[object Object]"], whatever the argument. *)
Definition ObjectPrototype_toString {St V P}
  : gmap string (@Member St V P string) :=
  {[ "toString" := Callable (fun _this _value => ret "[object Object]") ]}.

End ADTs.

(** ** Inputs of the examples *)

Module Examples.
Import ListM.

(** [f(x) = [x, x*10]] *)
Definition expand (x : Z) : List Z := Pair x (Pair (x * 10)%Z Empty).

(** A caller function that records each argument it is called with in the
    store before it returns [f x]. *)
Definition traced {T D E} (f : T -> D) : T -> Eff (list T) E D :=
  fun x calls => (Normal (f x), calls ++ [x]).

(** A combining function that records the element it is called with. *)
Definition traced_fold {T D E} (f : D -> T -> D) : D -> T -> Eff (list T) E D :=
  fun acc x calls => (Normal (f acc x), calls ++ [x]).

(** A caller function that throws [err x] on the elements [bad] holds of and
    returns [f x] on the others. *)
Definition throwing_on {St E T D} (bad : T -> bool) (err : T -> E) (f : T -> D)
  : T -> Eff St E D :=
  fun x => if bad x then throw (err x) else ret (f x).

End Examples.

(** ** Monad.ts: the laws asked of a [Monad] *)

Module MonadLaws.

Section Laws.
Context {St E : Type}.

(** The three laws of [bind] for a container [M], for functions without
    effects.  [pure] is the container's unit.  [valid] restricts the
    containers the laws are about (all of them, but for Writer: those on
    the fixed monoid).  [same] is the equality the laws use (structural,
    but for IO, whose values are functions: the same run from every
    store).  Each side of a law returns normally and leaves the store as
    it was. *)
Record Laws (M : Type -> Type)
    (pure : forall A, A -> M A)
    (bind : forall A B, M A -> (A -> Eff St E (M B)) -> Eff St E (M B))
    (valid : forall A, M A -> Prop)
    (same : forall A, M A -> M A -> Prop) : Prop := {
  (** [pure(a).bind(f) == f(a)] *)
  left_identity :
    forall A B (a : A) (f : A -> M B) (s : St),
      valid B (f a) ->
      exists r, bind A B (pure A a) (pure_fn f) s = (Normal r, s)
                /\ same B r (f a);
  (** [m.bind(pure) == m] *)
  right_identity :
    forall A (m : M A) (s : St),
      valid A m ->
      exists r, bind A A m (pure_fn (pure A)) s = (Normal r, s)
                /\ same A r m;
  (** [m.bind(f).bind(g) == m.bind(x => f(x).bind(g))] *)
  associativity :
    forall A B C (m : M A) (f : A -> M B) (g : B -> M C) (s : St),
      valid A m -> (forall a, valid B (f a)) -> (forall b, valid C (g b)) ->
      exists r1 r2,
        (let* m1 := bind A B m (pure_fn f) in bind B C m1 (pure_fn g)) s
        = (Normal r1, s)
        /\ bind A C m
             (fun x => let* m1 := pure_fn f x in bind B C m1 (pure_fn g)) s
           = (Normal r2, s)
        /\ same C r1 r2
}.

(** No restriction, structural equality. *)
Definition all (M : Type -> Type) : forall A, M A -> Prop :=
  fun _ _ => True.
Definition equal (M : Type -> Type) : forall A, M A -> M A -> Prop :=
  fun _ x y => x = y.

(** Two [IO]s are the same when they run the same from every store. *)
Definition same_run : forall A, IOM.IO St E A -> IOM.IO St E A -> Prop :=
  fun _ io1 io2 => forall s, IOM.runUnsafe io1 s = IOM.runUnsafe io2 s.
End Laws.

(** List.ts and Try.ts declare no unit of their own: the one-element list
    [new Pair(a, Empty.get())] and [new Success(a)] are the units. *)
Definition list_unit A (a : A) : ListM.List A := ListM.Pair a ListM.Empty.
Definition try_unit E A (a : A) : TryM.Try A E := TryM.Success a.
Arguments list_unit A a : clear implicits.
Arguments try_unit E A a : clear implicits.

(** [bind] of the current Writer for a continuation that does not use
    [make]; a continuation that does use it builds a Writer on the
    receiver's monoid, which [valid] covers. *)
Definition writer_bind {St V W} A B (this : WriterM.Writer W A)
    (func : A -> Eff St (Exn V) (WriterM.Writer W B))
  : Eff St (Exn V) (WriterM.Writer W B) :=
  WriterM.bind this (fun value _make => func value).

(** A Writer on the fixed monoid [m]. *)
Definition on_monoid {W} (m : MonoidM.Monoid W)
  : forall A, WriterM.Writer W A -> Prop :=
  fun _ w => WriterM.monoid w = m.
Definition legacy_on_monoid {W} (m : MonoidM.Monoid W)
  : forall A, WriterLegacy.Writer W A -> Prop :=
  fun _ w => WriterLegacy.monoid w = m.

End MonadLaws.

(** ** The login script kept with Try.ts *)

Module Login.
Import EitherM.

(** [enum LoginError] *)
Inductive LoginError : Type :=
| UserNotFound
| PasswordIncorrect
| UnexpectedError.

(** [interface User], with the type of [email] as a parameter: the script
    builds a user whose [email] is an [Option<string>] and then one whose
    [email] is a [string]. *)
Record User (Email : Type) : Type := mkUser {
  username : string;
  password : string;
  email : Email
}.
Arguments mkUser {Email} username password email.
Arguments username {Email} _.
Arguments password {Email} _.
Arguments email {Email} _.

(** [s == t] on two strings. *)
Definition str_eq (s t : string) : bool := bool_decide (s = t).

(** [loginUser(username, password)] *)
Definition loginUser (username password : string)
  : Either LoginError (User (OptionM.Option string)) :=
  if str_eq password "invalid" then asLeft PasswordIncorrect
  else if str_eq username "unfound" then asLeft UserNotFound
  else if str_eq username "admin" then asLeft UnexpectedError
  else asRight (mkUser username password OptionM.None).

(** [loginUser(username, password).bind((user) => Either.asRight({...,
    email: user.email.getOrElse("hello@world.md") }))], the value of [login]
    for the credentials of the call. *)
Definition login {St E} (username password : string)
  : Eff St E (Either LoginError (User string)) :=
  bind (loginUser username password)
    (fun user =>
       ret (asRight (mkUser (Login.username user) (Login.password user)
                       (OptionM.getOrElse (Login.email user) "hello@world.md")))).

End Login.

(** * Properties *)

(** Unfolds the plumbing of [Eff] in the goal. *)
Ltac eff_unfold := unfold seq, ret, throw, try_catch, pure_fn, twice, assert.
Ltac eff := eff_unfold; simpl.

(** ** [Eff]: pure steps *)

Section EffFacts.
Context {St E : Type}.

Lemma seq_ret_l {X Y} (x : X) (k : X -> Eff St E Y) (s : St) :
  seq (ret x) k s = k x s.
Proof. reflexivity. Qed.

Lemma seq_pure_fn {A X Y} (f : A -> X) (a : A) (k : X -> Eff St E Y) s :
  seq (pure_fn f a) k s = k (f a) s.
Proof. reflexivity. Qed.

Lemma seq_normal {X Y} (c : Eff St E X) (k : X -> Eff St E Y) s x s' :
  c s = (Normal x, s') -> seq c k s = k x s'.
Proof. intros Hc. unfold seq. now rewrite Hc. Qed.

Lemma seq_throw {X Y} (c : Eff St E X) (k : X -> Eff St E Y) s e s' :
  c s = (Throw e, s') -> seq c k s = (Throw e, s').
Proof. intros Hc. unfold seq. now rewrite Hc. Qed.
End EffFacts.

(** ** List *)

Section ListFacts.
Import ListM.
Context {St E : Type}.

Lemma to_list_concat {T} (l1 l2 : List T) :
  to_list (concat l1 l2) = to_list l1 ++ to_list l2.
Proof. induction l1 as [h t IH|]; simpl; [now rewrite IH | reflexivity]. Qed.

Lemma of_list_to_list {T} (l : List T) : of_list (to_list l) = l.
Proof. induction l as [h t IH|]; simpl; [now rewrite IH | reflexivity]. Qed.

Lemma to_list_of_list {T} (l : list T) : to_list (of_list l) = l.
Proof. induction l as [|x xs IH]; simpl; [reflexivity | now rewrite IH]. Qed.

Lemma to_list_inj {T} (l1 l2 : List T) : to_list l1 = to_list l2 -> l1 = l2.
Proof.
  intros H. rewrite <- (of_list_to_list l1), <- (of_list_to_list l2).
  now rewrite H.
Qed.

Lemma concat_Empty_r {T} (l : List T) : concat l Empty = l.
Proof. induction l as [h t IH|]; simpl; [now rewrite IH | reflexivity]. Qed.

Lemma concat_assoc {T} (a b c : List T) :
  concat (concat a b) c = concat a (concat b c).
Proof. induction a as [h t IH|]; simpl; [now rewrite IH | reflexivity]. Qed.

Lemma bind_pure_fn {T D} (l : List T) (f : T -> List D) (s : St) :
  bind (E:=E) l (pure_fn f) s = (Normal (flatten f l), s).
Proof.
  induction l as [h t IH|]; simpl; [|reflexivity].
  rewrite seq_pure_fn. erewrite seq_normal by apply IH. reflexivity.
Qed.

Lemma to_list_flatten {T D} (f : T -> List D) (l : List T) :
  to_list (flatten f l) = flat_map (fun x => to_list (f x)) (to_list l).
Proof.
  induction l as [h t IH|]; simpl; [|reflexivity].
  now rewrite to_list_concat, IH.
Qed.

Lemma flatten_concat {T D} (f : T -> List D) (a b : List T) :
  flatten f (concat a b) = concat (flatten f a) (flatten f b).
Proof.
  induction a as [h t IH|]; simpl; [|reflexivity].
  now rewrite IH, concat_assoc.
Qed.

Lemma bind_traced {T D} (f : T -> List D) (l : List T) (calls : list T) :
  bind (E:=E) l (Examples.traced f) calls
  = (Normal (flatten f l), calls ++ to_list l).
Proof.
  revert calls. induction l as [h t IH|]; intros calls; simpl.
  - erewrite seq_normal by reflexivity.
    erewrite seq_normal by apply IH.
    unfold ret. now rewrite <- app_assoc.
  - unfold ret. now rewrite app_nil_r.
Qed.

Lemma foldRight_pure {T D} (l : List T) (seed : D) (f : D -> T -> D) (s : St) :
  foldRight (E:=E) l seed (fun acc head => ret (f acc head)) s
  = (Normal (fold_right (fun head acc => f acc head) seed (to_list l)), s).
Proof.
  induction l as [h t IH|]; simpl; [|reflexivity].
  erewrite seq_normal by apply IH. reflexivity.
Qed.
End ListFacts.

(** C1: [List.isEmpty] is meant to say whether the list is [Empty].  On a
    [Pair] it returns false; on the [Empty] list the method as written
    returns false as well, where the claim asks for true. *)
Theorem isEmpty_Empty_returns_false :
  (forall T : Type, ListM.isEmpty (@ListM.Empty T) = false)
  /\ (forall (T : Type) (head : T) (tail : ListM.List T),
        ListM.isEmpty (ListM.Pair head tail) = false).
Proof. split; reflexivity. Qed.

(** C5: [List.bind] applies the function to every element in the original
    order and concatenates the results in place: with a function [f] that
    has no effect the result holds [f(x1) ++ ... ++ f(xn)] and the store is
    untouched; a function that records its calls is called on [x1], ...,
    [xn] in this order, once each; on [Empty] the result is [Empty] and the
    function is not called; [[1,2,3]] with [f(x) = [x, x*10]] gives
    [[1,10,2,20,3,30]]. *)
Theorem list_bind_concatenates_in_order :
  (forall (St E T D : Type) (l : ListM.List T) (f : T -> ListM.List D) (s : St),
      exists r,
        ListM.bind (E:=E) l (pure_fn f) s = (Normal r, s)
        /\ ListM.to_list r
           = flat_map (fun x => ListM.to_list (f x)) (ListM.to_list l))
  /\ (forall (E T D : Type) (l : ListM.List T) (f : T -> ListM.List D)
             (calls : list T),
        exists r,
          ListM.bind (E:=E) l (Examples.traced f) calls
          = (Normal r, calls ++ ListM.to_list l)
          /\ ListM.to_list r
             = flat_map (fun x => ListM.to_list (f x)) (ListM.to_list l))
  /\ (forall (St E T D : Type) (func : T -> Eff St E (ListM.List D)) (s : St),
        ListM.bind ListM.Empty func s = (Normal ListM.Empty, s))
  /\ (forall (St E : Type) (s : St),
        ListM.bind (E:=E) (ListM.of_list [1; 2; 3]%Z) (pure_fn Examples.expand) s
        = (Normal (ListM.of_list [1; 10; 2; 20; 3; 30]%Z), s)).
Proof.
  repeat split.
  - intros. exists (ListM.flatten f l). split.
    + apply bind_pure_fn.
    + apply to_list_flatten.
  - intros. exists (ListM.flatten f l). split.
    + apply bind_traced.
    + apply to_list_flatten.
Qed.

(** C6: [foldRight] folds the tail first and passes the folded tail as the
    first argument and the head as the second: on [Pair(head, tail)] it is
    [func(tail.foldRight(seed)(func), head)], on [Empty] it is [seed] and
    [func] is not called.  With a function without effects this is the
    right fold of the elements with the arguments of [f] swapped. *)
Theorem foldRight_passes_head_second :
  (forall (St E T D : Type) (head : T) (tail : ListM.List T) (seed : D)
          (func : D -> T -> Eff St E D) (s : St),
      ListM.foldRight (ListM.Pair head tail) seed func s
      = (let* acc := ListM.foldRight tail seed func in func acc head) s)
  /\ (forall (St E T D : Type) (seed : D) (func : D -> T -> Eff St E D) (s : St),
        ListM.foldRight ListM.Empty seed func s = (Normal seed, s))
  /\ (forall (St E T D : Type) (head : T) (tail : ListM.List T) (seed : D)
             (f : D -> T -> D) (s : St),
        exists folded,
          ListM.foldRight (E:=E) tail seed (fun acc h => ret (f acc h)) s
          = (Normal folded, s)
          /\ ListM.foldRight (E:=E) (ListM.Pair head tail) seed
               (fun acc h => ret (f acc h)) s
             = (Normal (f folded head), s))
  /\ (forall (St E T D : Type) (l : ListM.List T) (seed : D) (f : D -> T -> D)
             (s : St),
        ListM.foldRight (E:=E) l seed (fun acc h => ret (f acc h)) s
        = (Normal (fold_right (fun h acc => f acc h) seed (ListM.to_list l)), s)).
Proof.
  repeat split.
  - intros. eexists. split.
    + apply foldRight_pure.
    + simpl. erewrite seq_normal by apply foldRight_pure. reflexivity.
  - intros. apply foldRight_pure.
Qed.

(** ** Try *)

Section TryFacts.
Import TryM.
Context {St E : Type}.

Lemma try_bind_Success {A B} (x : A) (func : A -> Eff St E (Try B E)) s :
  bind (Success x) func s
  = match func x s with
    | (Normal t, s') => (Normal t, s')
    | (Throw e, s') => (Normal (Failure e), s')
    end.
Proof. reflexivity. Qed.

Lemma try_map_Success {A B} (x : A) (func : A -> Eff St E B) s :
  map (Success x) func s
  = match func x s with
    | (Normal b, s') => (Normal (Success b), s')
    | (Throw e, s') => (Normal (Failure e), s')
    end.
Proof. simpl. eff. now destruct (func x s) as [[b|e] s']. Qed.

Lemma try_recover_Failure {A} (e : E) (func : E -> Eff St E A) s :
  recover (Failure e) func s
  = match func e s with
    | (Normal a, s') => (Normal (Success a), s')
    | (Throw e', s') => (Normal (Failure e'), s')
    end.
Proof. simpl. eff. now destruct (func e s) as [[a|e'] s']. Qed.

Lemma try_recoverWith_Failure {A} (e : E) (func : E -> Eff St E (Try A E)) s :
  recoverWith (Failure e) func s
  = match func e s with
    | (Normal t, s') => (Normal t, s')
    | (Throw e', s') => (Normal (Failure e'), s')
    end.
Proof. reflexivity. Qed.

(** No combinator of [Try] lets a throw of its argument through. *)
Lemma try_bind_returns {A B} (this : Try A E) (func : A -> Eff St E (Try B E)) s :
  exists t s', bind this func s = (Normal t, s').
Proof.
  destruct this as [x|e]; [|now eexists _, _].
  rewrite try_bind_Success. destruct (func x s) as [[t|e] s']; now eexists _, _.
Qed.

Lemma try_map_returns {A B} (this : Try A E) (func : A -> Eff St E B) s :
  exists t s', map this func s = (Normal t, s').
Proof.
  destruct this as [x|e]; [|now eexists _, _].
  rewrite try_map_Success. destruct (func x s) as [[t|e] s']; now eexists _, _.
Qed.

Lemma try_recover_returns {A} (this : Try A E) (func : E -> Eff St E A) s :
  exists t s', recover this func s = (Normal t, s').
Proof.
  destruct this as [x|e]; [now eexists _, _|].
  rewrite try_recover_Failure.
  destruct (func e s) as [[t|e'] s']; now eexists _, _.
Qed.

Lemma try_recoverWith_returns {A} (this : Try A E)
    (func : E -> Eff St E (Try A E)) s :
  exists t s', recoverWith this func s = (Normal t, s').
Proof.
  destruct this as [x|e]; [now eexists _, _|].
  rewrite try_recoverWith_Failure.
  destruct (func e s) as [[t|e'] s']; now eexists _, _.
Qed.
End TryFacts.

(** C3: every combinator of [Try] is a catch boundary.  On [Success(x)],
    [bind] gives the result of the function and [map] the [Success] of it,
    and a value [e] that the function throws becomes [Failure(e)]; on
    [Failure(e)], [bind] and [map] give a [Failure] with the same [e] and
    leave the store as it was, so the function was not called; [recover] and
    [recoverWith] on [Failure(e)] apply the function to [e] and turn a throw
    into a new [Failure], and on a [Success] they return it unchanged
    without a call.  In no case does a throw escape. *)
Theorem try_catches_at_every_combinator :
  forall (St E A B : Type),
    (* bind and map on Success *)
    (forall (x : A) (func : A -> Eff St E (TryM.Try B E)) s t s',
        func x s = (Normal t, s') ->
        TryM.bind (TryM.Success x) func s = (Normal t, s'))
    /\ (forall (x : A) (func : A -> Eff St E (TryM.Try B E)) s e s',
          func x s = (Throw e, s') ->
          TryM.bind (TryM.Success x) func s = (Normal (TryM.Failure e), s'))
    /\ (forall (x : A) (func : A -> Eff St E B) s b s',
          func x s = (Normal b, s') ->
          TryM.map (TryM.Success x) func s = (Normal (TryM.Success b), s'))
    /\ (forall (x : A) (func : A -> Eff St E B) s e s',
          func x s = (Throw e, s') ->
          TryM.map (TryM.Success x) func s = (Normal (TryM.Failure e), s'))
    (* bind and map on Failure *)
    /\ (forall (e : E) (func : A -> Eff St E (TryM.Try B E)) s,
          TryM.bind (TryM.Failure e) func s = (Normal (TryM.Failure e), s))
    /\ (forall (e : E) (func : A -> Eff St E B) s,
          TryM.map (TryM.Failure e) func s = (Normal (TryM.Failure e), s))
    (* recover and recoverWith on Failure *)
    /\ (forall (e : E) (func : E -> Eff St E A) s a s',
          func e s = (Normal a, s') ->
          TryM.recover (TryM.Failure e) func s = (Normal (TryM.Success a), s'))
    /\ (forall (e : E) (func : E -> Eff St E A) s e' s',
          func e s = (Throw e', s') ->
          TryM.recover (TryM.Failure e) func s = (Normal (TryM.Failure e'), s'))
    /\ (forall (e : E) (func : E -> Eff St E (TryM.Try A E)) s t s',
          func e s = (Normal t, s') ->
          TryM.recoverWith (TryM.Failure e) func s = (Normal t, s'))
    /\ (forall (e : E) (func : E -> Eff St E (TryM.Try A E)) s e' s',
          func e s = (Throw e', s') ->
          TryM.recoverWith (TryM.Failure e) func s
          = (Normal (TryM.Failure e'), s'))
    (* recover and recoverWith on Success *)
    /\ (forall (x : A) (func : E -> Eff St E A) s,
          TryM.recover (TryM.Success x) func s = (Normal (TryM.Success x), s))
    /\ (forall (x : A) (func : E -> Eff St E (TryM.Try A E)) s,
          TryM.recoverWith (TryM.Success x) func s
          = (Normal (TryM.Success x), s))
    (* nothing escapes *)
    /\ (forall (this : TryM.Try A E) (func : A -> Eff St E (TryM.Try B E)) s,
          exists t s', TryM.bind this func s = (Normal t, s'))
    /\ (forall (this : TryM.Try A E) (func : A -> Eff St E B) s,
          exists t s', TryM.map this func s = (Normal t, s'))
    /\ (forall (this : TryM.Try A E) (func : E -> Eff St E A) s,
          exists t s', TryM.recover this func s = (Normal t, s'))
    /\ (forall (this : TryM.Try A E) (func : E -> Eff St E (TryM.Try A E)) s,
          exists t s', TryM.recoverWith this func s = (Normal t, s')).
Proof.
  intros St E A B.
  repeat match goal with |- _ /\ _ => split end.
  - intros x func s t s' H. now rewrite try_bind_Success, H.
  - intros x func s e s' H. now rewrite try_bind_Success, H.
  - intros x func s b s' H. now rewrite try_map_Success, H.
  - intros x func s e s' H. now rewrite try_map_Success, H.
  - reflexivity.
  - reflexivity.
  - intros e func s a s' H. now rewrite try_recover_Failure, H.
  - intros e func s e' s' H. now rewrite try_recover_Failure, H.
  - intros e func s t s' H. now rewrite try_recoverWith_Failure, H.
  - intros e func s e' s' H. now rewrite try_recoverWith_Failure, H.
  - reflexivity.
  - reflexivity.
  - apply try_bind_returns.
  - apply try_map_returns.
  - apply try_recover_returns.
  - apply try_recoverWith_returns.
Qed.

(** The examples of the specification: a function that throws ["boom"]
    under [Success(x).bind], and [Failure(e).recover(err => err.length)];
    the store counts the calls of the function. *)
Lemma try_catches_at_every_combinator_witness :
  TryM.bind (B:=Z) (TryM.Success 1%Z)
    (fun _ calls => (Throw "boom", S calls)) 0
  = (Normal (TryM.Failure "boom"), 1)
  /\ TryM.recover (TryM.Failure "oops")
       (fun err calls => (Normal (String.length err), S calls)) 0
     = (Normal (TryM.Success 4), 1).
Proof.
  split.
  - apply (proj1 (proj2 (try_catches_at_every_combinator nat string Z Z))).
    reflexivity.
  - apply (proj1 (proj2 (proj2 (proj2 (proj2 (proj2 (proj2
             (try_catches_at_every_combinator nat string nat nat)))))))).
    reflexivity.
Defined.

(** ** Option and Either *)

Section OptionEitherFacts.
Context {St E : Type}.

Lemma option_map_Some {A B} (x : A) (func : A -> Eff St E B) s :
  OptionM.map (OptionM.Some x) func s
  = match func x s with
    | (Normal b, s') => (Normal (OptionM.Some b), s')
    | (Throw e, s') => (Throw e, s')
    end.
Proof. simpl. eff. now destruct (func x s) as [[b|e] s']. Qed.

Lemma either_map_Right {L R T} (x : R) (func : R -> Eff St E T) s :
  EitherM.map (L:=L) (EitherM.Right x) func s
  = match func x s with
    | (Normal t, s') => (Normal (EitherM.Right t), s')
    | (Throw e, s') => (Throw e, s')
    end.
Proof. simpl. eff. now destruct (func x s) as [[b|e] s']. Qed.
End OptionEitherFacts.

(** C4: [Option] and [Either] only short-circuit and never catch.
    [None.bind(f)] is [None] and [Left(l).bind(f)] is a [Left] with the same
    [l], for every [f], with the store as it was (so [f] was not called);
    when the function throws [e] on the value of a [Some] or a [Right],
    [bind] and [map] throw the same [e]: no container value comes back. *)
Theorem option_either_short_circuit_and_never_catch :
  forall (St E L A B : Type),
    (forall (func : A -> Eff St E (OptionM.Option B)) s,
        OptionM.bind OptionM.None func s = (Normal OptionM.None, s))
    /\ (forall (l : L) (func : A -> Eff St E (EitherM.Either L B)) s,
          EitherM.bind (EitherM.Left l) func s = (Normal (EitherM.Left l), s))
    /\ (forall (x : A) (func : A -> Eff St E (OptionM.Option B)) s e s',
          func x s = (Throw e, s') ->
          OptionM.bind (OptionM.Some x) func s = (Throw e, s'))
    /\ (forall (x : A) (func : A -> Eff St E B) s e s',
          func x s = (Throw e, s') ->
          OptionM.map (OptionM.Some x) func s = (Throw e, s'))
    /\ (forall (x : A) (func : A -> Eff St E (EitherM.Either L B)) s e s',
          func x s = (Throw e, s') ->
          EitherM.bind (EitherM.Right x) func s = (Throw e, s'))
    /\ (forall (x : A) (func : A -> Eff St E B) s e s',
          func x s = (Throw e, s') ->
          EitherM.map (L:=L) (EitherM.Right x) func s = (Throw e, s')).
Proof.
  intros St E L A B.
  repeat match goal with |- _ /\ _ => split end.
  - reflexivity.
  - reflexivity.
  - intros x func s e s' H. exact H.
  - intros x func s e s' H. now rewrite option_map_Some, H.
  - intros x func s e s' H. exact H.
  - intros x func s e s' H. now rewrite either_map_Right, H.
Qed.

(** A function that throws ["boom"] after it has counted its call. *)
Lemma option_either_short_circuit_and_never_catch_witness :
  OptionM.bind (B:=Z) (OptionM.Some 5%Z)
    (fun _ calls => (Throw "boom", S calls)) 0
  = (Throw "boom", 1)
  /\ EitherM.map (L:=string) (T:=Z) (EitherM.Right 5%Z)
       (fun _ calls => (Throw "boom", S calls)) 0
     = (Throw "boom", 1).
Proof.
  split.
  - apply (proj1 (proj2 (proj2
      (option_either_short_circuit_and_never_catch nat string string Z Z)))).
    reflexivity.
  - apply (proj2 (proj2 (proj2 (proj2 (proj2
      (option_either_short_circuit_and_never_catch nat string string Z Z)))))).
    reflexivity.
Defined.

(** ** IO *)

Section IOFacts.
Import IOM.
Context {St E : Type}.

Lemma io_bind_defers {A B} (this : IO St E A)
    (func : A -> Eff St E (IO St E B)) s :
  bind this func s
  = (Normal (mkIO (let* a := runUnsafe this in
                   let* next := func a in
                   runUnsafe next)), s).
Proof. reflexivity. Qed.

Lemma io_map_defers {A B} (this : IO St E A) (func : A -> Eff St E B) s :
  map this func s = (Normal (mkIO (let* a := runUnsafe this in func a)), s).
Proof. reflexivity. Qed.

(** Two runs of an [IO] whose run adds one to a counter add two. *)
Lemma io_run_twice_counts_twice {A} (io : IO St E A) (counter : St -> Z) :
  (forall s, exists x s', runUnsafe io s = (Normal x, s')
                          /\ counter s' = (counter s + 1)%Z) ->
  forall s, exists x s'', twice (runUnsafe io) s = (Normal x, s'')
                          /\ counter s'' = (counter s + 2)%Z.
Proof.
  intros Hrun s.
  destruct (Hrun s) as (x1 & s1 & H1 & C1).
  destruct (Hrun s1) as (x2 & s2 & H2 & C2).
  exists x2, s2. split; [|lia].
  unfold twice. erewrite seq_normal by exact H1. exact H2.
Qed.
End IOFacts.

Lemma program_runs {E} (v a : Z) :
  exists p, IOM.program (E:=E) v a = (Normal p, a)
            /\ forall a', IOM.runUnsafe p a' = (Normal v, (a' + 1)%Z).
Proof. eexists. split; reflexivity. Qed.

(** C9: composing [IO]s runs nothing and a run is never cached.  [from],
    [bind] and [map] return the new [IO] with the store as it was ([of] has
    no store to touch); the [IO] that [bind] returns runs, at every call of
    [runUnsafe], the receiver, then the function, then the [IO] the function
    gave; so an [IO] whose run adds one to a counter adds two when run
    twice, and the program of the laziness test leaves [a] alone when built
    and has added one after the first run and two after the second. *)
Theorem io_is_deferred_and_rerun :
  (forall (St E A : Type) (thunk : Eff St E A) s,
      IOM.from thunk s = (Normal (IOM.mkIO thunk), s))
  /\ (forall (St E A : Type) (value : A) (s : St),
        IOM.runUnsafe (E:=E) (IOM.of_ value) s = (Normal value, s))
  /\ (forall (St E A B : Type) (this : IOM.IO St E A)
             (func : A -> Eff St E (IOM.IO St E B)) s,
        exists io,
          IOM.bind this func s = (Normal io, s)
          /\ forall s', IOM.runUnsafe io s'
                        = (let* a := IOM.runUnsafe this in
                           let* next := func a in
                           IOM.runUnsafe next) s')
  /\ (forall (St E A B : Type) (this : IOM.IO St E A)
             (func : A -> Eff St E B) s,
        exists io,
          IOM.map this func s = (Normal io, s)
          /\ forall s', IOM.runUnsafe io s'
                        = (let* a := IOM.runUnsafe this in func a) s')
  /\ (forall (St E A : Type) (io : IOM.IO St E A) (counter : St -> Z),
        (forall s, exists x s', IOM.runUnsafe io s = (Normal x, s')
                                /\ counter s' = (counter s + 1)%Z) ->
        forall s, exists x s'', twice (IOM.runUnsafe io) s = (Normal x, s'')
                                /\ counter s'' = (counter s + 2)%Z)
  /\ (forall (E : Type) (v a : Z),
        exists p,
          IOM.program (E:=E) v a = (Normal p, a)
          /\ IOM.runUnsafe p a = (Normal v, (a + 1)%Z)
          /\ twice (IOM.runUnsafe p) a = (Normal v, (a + 2)%Z)).
Proof.
  repeat match goal with |- _ /\ _ => split end.
  - reflexivity.
  - reflexivity.
  - intros. eexists. split; [apply io_bind_defers | reflexivity].
  - intros. eexists. split; [apply io_map_defers | reflexivity].
  - intros St E A io counter. apply io_run_twice_counts_twice.
  - intros E v a. destruct (program_runs (E:=E) v a) as (p & Hp & Hrun).
    exists p. split; [exact Hp|]. split; [apply Hrun|].
    unfold twice. erewrite seq_normal by apply Hrun.
    rewrite Hrun. f_equal. lia.
Qed.

(** The program of the laziness test, [IO.of(43).bind(...)], built with
    [a = 0]: its run adds one to [a] wherever it starts, so two runs from 0
    end with [a = 2]. *)
Lemma io_is_deferred_and_rerun_witness :
  exists x a'',
    twice (IOM.runUnsafe
             (IOM.mkIO (E:=unit)
                (let* v := IOM.runUnsafe (IOM.of_ 43%Z) in
                 let* next := IOM.increment v in
                 IOM.runUnsafe next))) 0%Z
    = (Normal x, a'')
    /\ id a'' = (id 0 + 2)%Z.
Proof.
  apply (proj1 (proj2 (proj2 (proj2 (proj2 io_is_deferred_and_rerun))))
           Z unit Z _ id).
  intros s. exists 43%Z, (s + 1)%Z. split; reflexivity.
Defined.

(** ** The monad laws *)

Section LawsOfContainers.
Import MonadLaws.
Context {St E : Type}.

Lemma option_laws :
  Laws (St:=St) (E:=E) OptionM.Option
    (@OptionM.pure) (@OptionM.bind St E) (all _) (equal _).
Proof.
  split.
  - intros A B a f s _. now exists (f a).
  - intros A m s _. exists m. now destruct m.
  - intros A B C m f g s _ _ _. destruct m as [x|].
    + destruct (f x) as [y|] eqn:Hf.
      * exists (g y), (g y). simpl. rewrite !seq_pure_fn, Hf. now simpl.
      * exists OptionM.None, OptionM.None. simpl.
        rewrite !seq_pure_fn, Hf. now simpl.
    + now exists OptionM.None, OptionM.None.
Qed.

Lemma either_laws (L : Type) :
  Laws (St:=St) (E:=E) (EitherM.Either L)
    (fun A => @EitherM.asRight L A) (fun A B => @EitherM.bind St E L A B)
    (all _) (equal _).
Proof.
  split.
  - intros A B a f s _. now exists (f a).
  - intros A m s _. exists m. now destruct m.
  - intros A B C m f g s _ _ _. destruct m as [x|l].
    + destruct (f x) as [y|l] eqn:Hf.
      * exists (g y), (g y). simpl. rewrite !seq_pure_fn, Hf. now simpl.
      * exists (EitherM.Left l), (EitherM.Left l). simpl.
        rewrite !seq_pure_fn, Hf. now simpl.
    + now exists (EitherM.Left l), (EitherM.Left l).
Qed.

Lemma try_laws :
  Laws (St:=St) (E:=E) (fun A => TryM.Try A E)
    (try_unit E) (@TryM.bind St E) (all _) (equal _).
Proof.
  split.
  - intros A B a f s _. now exists (f a).
  - intros A m s _. exists m. now destruct m.
  - intros A B C m f g s _ _ _. destruct m as [x|e].
    + destruct (f x) as [y|e] eqn:Hf.
      * exists (g y), (g y). simpl. eff. rewrite Hf. now simpl.
      * exists (TryM.Failure e), (TryM.Failure e). simpl. eff.
        rewrite Hf. now simpl.
    + now exists (TryM.Failure e), (TryM.Failure e).
Qed.

Lemma io_laws :
  Laws (St:=St) (E:=E) (IOM.IO St E)
    (fun A => @IOM.of_ St E A) (@IOM.bind St E) (all _) same_run.
Proof.
  split.
  - intros A B a f s _. eexists. split; [reflexivity|].
    intros s'. reflexivity.
  - intros A m s _. eexists. split; [reflexivity|].
    intros s'. unfold IOM.runUnsafe. simpl. eff.
    now destruct (IOM.effect m s') as [[a|e] s1].
  - intros A B C m f g s _ _ _. eexists _, _.
    split; [reflexivity|]. split; [reflexivity|].
    intros s'. unfold IOM.runUnsafe. simpl. eff.
    destruct (IOM.effect m s') as [[a|e] s1]; [|reflexivity].
    unfold IOM.runUnsafe. eff.
    now destruct (IOM.effect (f a) s1) as [[b|e] s2].
Qed.

Lemma list_bind_pointwise {T D} (l : ListM.List T)
    (func : T -> Eff St E (ListM.List D)) (f : T -> ListM.List D) s :
  (forall x s', func x s' = (Normal (f x), s')) ->
  ListM.bind l func s = (Normal (ListM.flatten f l), s).
Proof.
  intros Hf. induction l as [h t IH|]; simpl; [|reflexivity].
  erewrite seq_normal by apply Hf.
  erewrite seq_normal by apply IH. reflexivity.
Qed.

Lemma flatten_list_unit {T} (l : ListM.List T) :
  ListM.flatten (list_unit T) l = l.
Proof. induction l as [h t IH|]; simpl; [now rewrite IH | reflexivity]. Qed.

Lemma flatten_flatten {T D F} (f : T -> ListM.List D) (g : D -> ListM.List F)
    (l : ListM.List T) :
  ListM.flatten g (ListM.flatten f l)
  = ListM.flatten (fun x => ListM.flatten g (f x)) l.
Proof.
  induction l as [h t IH|]; simpl; [|reflexivity].
  now rewrite flatten_concat, IH.
Qed.

Lemma list_laws :
  Laws (St:=St) (E:=E) ListM.List
    list_unit (@ListM.bind St E) (all _) (equal _).
Proof.
  split.
  - intros A B a f s _. exists (f a). split; [|reflexivity].
    unfold list_unit. rewrite bind_pure_fn. simpl.
    now rewrite concat_Empty_r.
  - intros A m s _. exists m. split; [|reflexivity].
    now rewrite bind_pure_fn, flatten_list_unit.
  - intros A B C m f g s _ _ _.
    exists (ListM.flatten g (ListM.flatten f m)),
           (ListM.flatten (fun x => ListM.flatten g (f x)) m).
    split; [|split].
    + erewrite seq_normal by apply bind_pure_fn. apply bind_pure_fn.
    + apply list_bind_pointwise. intros x s'.
      rewrite seq_pure_fn. apply bind_pure_fn.
    + apply flatten_flatten.
Qed.
End LawsOfContainers.

Section LawsOfWriter.
Import MonadLaws MonoidM.
Context {St V W : Type} (m : Monoid W) (Hm : Lawful m).

Lemma same_refl (m' : Monoid W) : same m' m' = true.
Proof. apply Nat.eqb_refl. Qed.

(** [bind] on a Writer of the monoid [m] with a function without effects
    that answers on [m]. *)
Lemma writer_bind_pure_fn {A B} (this : WriterM.Writer W A)
    (f : A -> WriterM.Writer W B) (s : St) :
  WriterM.monoid this = m ->
  WriterM.monoid (f (WriterM.value this)) = m ->
  writer_bind (V:=V) this (pure_fn f) s
  = (Normal (WriterM.mkWriter
               (WriterM.value (f (WriterM.value this)))
               (combine m (WriterM.log this)
                          (WriterM.log (f (WriterM.value this))))
               m), s).
Proof.
  intros Hthis Hf. unfold writer_bind, WriterM.bind.
  rewrite seq_pure_fn, Hf, Hthis, same_refl. reflexivity.
Qed.

Lemma writer_laws :
  Laws (St:=St) (E:=Exn V) (WriterM.Writer W)
    (fun A a => WriterM.of_ a m) (@writer_bind St V W)
    (on_monoid m) (equal _).
Proof using Hm.
  destruct Hm as [Hl Hr Ha]. unfold on_monoid, equal. split.
  - intros A B a f s Hf. exists (f a). split; [|reflexivity].
    rewrite writer_bind_pure_fn by (try reflexivity; exact Hf).
    simpl. rewrite Hl. destruct (f a); simpl in *. now subst.
  - intros A w s Hw. exists w. split; [|reflexivity].
    rewrite writer_bind_pure_fn by (try reflexivity; exact Hw).
    simpl. rewrite Hr. destruct w; simpl in *. now subst.
  - intros A B C w f g s Hw Hf Hg.
    set (w1 := f (WriterM.value w)).
    set (w2 := g (WriterM.value w1)).
    exists (WriterM.mkWriter (WriterM.value w2)
              (combine m (combine m (WriterM.log w) (WriterM.log w1))
                         (WriterM.log w2)) m),
           (WriterM.mkWriter (WriterM.value w2)
              (combine m (WriterM.log w)
                         (combine m (WriterM.log w1) (WriterM.log w2))) m).
    split; [|split].
    + erewrite seq_normal by (apply writer_bind_pure_fn; [exact Hw | apply Hf]).
      rewrite writer_bind_pure_fn by (try reflexivity; apply Hg).
      reflexivity.
    + unfold writer_bind at 1. unfold WriterM.bind at 1. cbv beta.
      erewrite seq_normal
        by (rewrite seq_pure_fn;
            apply writer_bind_pure_fn; [apply Hf | apply Hg]).
      simpl. rewrite Hw, same_refl. reflexivity.
    + now rewrite Ha.
Qed.

Lemma writer_legacy_laws {E : Type} :
  Laws (St:=St) (E:=E) (WriterLegacy.Writer W)
    (fun A a => WriterLegacy.of_ a m)
    (fun A B => @WriterLegacy.bind St E W A B)
    (legacy_on_monoid m) (equal _).
Proof using Hm.
  destruct Hm as [Hl Hr Ha]. unfold legacy_on_monoid, equal. split.
  - intros A B a f s Hf. exists (f a). split; [|reflexivity].
    unfold WriterLegacy.bind. rewrite seq_pure_fn. simpl. rewrite Hl.
    destruct (f a); simpl in *. now subst.
  - intros A w s Hw. exists w. split; [|reflexivity].
    unfold WriterLegacy.bind. rewrite seq_pure_fn. simpl.
    destruct w; simpl in *. subst. now rewrite Hr.
  - intros A B C w f g s Hw Hf Hg. eexists _, _.
    split; [reflexivity|]. split; [reflexivity|].
    simpl. rewrite Hw, Hf. now rewrite Ha.
Qed.
End LawsOfWriter.

Lemma string_append_empty_r (x : string) : x +:+ "" = x.
Proof.
  induction x as [|c x IH]; [reflexivity|].
  change (String c (x +:+ "") = String c x). now rewrite IH.
Qed.

Lemma string_append_assoc (x y z : string) :
  (x +:+ y) +:+ z = x +:+ (y +:+ z).
Proof.
  induction x as [|c x IH]; [reflexivity|].
  change (String c ((x +:+ y) +:+ z) = String c (x +:+ (y +:+ z))).
  now rewrite IH.
Qed.

Lemma StringConcatMonoid_lawful : MonoidM.Lawful MonoidM.StringConcatMonoid.
Proof.
  split; simpl.
  - reflexivity.
  - apply string_append_empty_r.
  - apply string_append_assoc.
Qed.

Lemma ListMonoid_lawful {T} (fresh : nat) :
  MonoidM.Lawful (MonoidM.ListMonoid (T:=T) fresh).
Proof.
  split; simpl.
  - reflexivity.
  - apply app_nil_r.
  - intros x y z. now rewrite app_assoc.
Qed.

(** C2: [bind] obeys left identity, right identity and associativity on
    Option, Either, Try (on both branches), IO, List and Writer, for every
    value, every container and all functions without effects.  For Writer
    the monoid is fixed and lawful and the containers are on it; both
    revisions of Writer are covered.  Equality is structural; two [IO]s are
    equal when they run alike from every store. *)
Theorem bind_satisfies_monad_laws :
  forall (St E V L W : Type),
    MonadLaws.Laws (St:=St) (E:=E) OptionM.Option
      (@OptionM.pure) (@OptionM.bind St E)
      (MonadLaws.all _) (MonadLaws.equal _)
    /\ MonadLaws.Laws (St:=St) (E:=E) (EitherM.Either L)
         (fun A => @EitherM.asRight L A) (fun A B => @EitherM.bind St E L A B)
         (MonadLaws.all _) (MonadLaws.equal _)
    /\ MonadLaws.Laws (St:=St) (E:=E) (fun A => TryM.Try A E)
         (MonadLaws.try_unit E) (@TryM.bind St E)
         (MonadLaws.all _) (MonadLaws.equal _)
    /\ MonadLaws.Laws (St:=St) (E:=E) (IOM.IO St E)
         (fun A => @IOM.of_ St E A) (@IOM.bind St E)
         (MonadLaws.all _) MonadLaws.same_run
    /\ MonadLaws.Laws (St:=St) (E:=E) ListM.List
         MonadLaws.list_unit (@ListM.bind St E)
         (MonadLaws.all _) (MonadLaws.equal _)
    /\ (forall m : MonoidM.Monoid W,
          MonoidM.Lawful m ->
          MonadLaws.Laws (St:=St) (E:=Exn V) (WriterM.Writer W)
            (fun A a => WriterM.of_ a m) (@MonadLaws.writer_bind St V W)
            (MonadLaws.on_monoid m) (MonadLaws.equal _)
          /\ MonadLaws.Laws (St:=St) (E:=E) (WriterLegacy.Writer W)
               (fun A a => WriterLegacy.of_ a m)
               (fun A B => @WriterLegacy.bind St E W A B)
               (MonadLaws.legacy_on_monoid m) (MonadLaws.equal _)).
Proof.
  intros St E V L W.
  repeat match goal with |- _ /\ _ => split end.
  - apply option_laws.
  - apply either_laws.
  - apply try_laws.
  - apply io_laws.
  - apply list_laws.
  - intros m Hm. split.
    + now apply writer_laws.
    + now apply writer_legacy_laws.
Qed.

(** The laws of Writer at the string monoid of Monoid.ts. *)
Lemma bind_satisfies_monad_laws_witness :
  MonoidM.Lawful MonoidM.StringConcatMonoid
  /\ MonadLaws.Laws (St:=unit) (E:=Exn string) (WriterM.Writer string)
       (fun A a => WriterM.of_ a MonoidM.StringConcatMonoid)
       (@MonadLaws.writer_bind unit string string)
       (MonadLaws.on_monoid MonoidM.StringConcatMonoid) (MonadLaws.equal _).
Proof.
  split; [exact StringConcatMonoid_lawful|].
  apply (proj2 (proj2 (proj2 (proj2 (proj2
           (bind_satisfies_monad_laws unit (Exn string) string unit string)))))
           MonoidM.StringConcatMonoid StringConcatMonoid_lawful).
Defined.

(** ** Writer: the log *)

Section WriterFacts.
Import MonoidM.
Context {St V : Type}.

Lemma writer_bind_same {W A B} (this : WriterM.Writer W A)
    (func : A -> WriterM.Make W -> Eff St (Exn V) (WriterM.Writer W B))
    s result s' :
  func (WriterM.value this) (WriterM.make this) s = (Normal result, s') ->
  same (WriterM.monoid result) (WriterM.monoid this) = true ->
  WriterM.bind this func s
  = (Normal (WriterM.mkWriter (WriterM.value result)
               (combine (WriterM.monoid this)
                  (WriterM.log this) (WriterM.log result))
               (WriterM.monoid this)), s').
Proof.
  intros Hf Hsame. unfold WriterM.bind.
  erewrite seq_normal by exact Hf. now rewrite Hsame.
Qed.

Lemma writer_bind_mismatch {W A B} (this : WriterM.Writer W A)
    (func : A -> WriterM.Make W -> Eff St (Exn V) (WriterM.Writer W B))
    s result s' :
  func (WriterM.value this) (WriterM.make this) s = (Normal result, s') ->
  same (WriterM.monoid result) (WriterM.monoid this) = false ->
  WriterM.bind this func s
  = (Throw (AssertionError "Must have the same monoid"), s').
Proof.
  intros Hf Hsame. unfold WriterM.bind.
  erewrite seq_normal by exact Hf. now rewrite Hsame.
Qed.

Lemma writer_bind_normal_inv {W A B} (this : WriterM.Writer W A)
    (func : A -> WriterM.Make W -> Eff St (Exn V) (WriterM.Writer W B))
    s w s' :
  WriterM.bind this func s = (Normal w, s') ->
  exists result,
    func (WriterM.value this) (WriterM.make this) s = (Normal result, s')
    /\ same (WriterM.monoid result) (WriterM.monoid this) = true
    /\ w = WriterM.mkWriter (WriterM.value result)
             (combine (WriterM.monoid this)
                (WriterM.log this) (WriterM.log result))
             (WriterM.monoid this).
Proof.
  unfold WriterM.bind.
  destruct (func (WriterM.value this) (WriterM.make this) s)
    as [[result|e] s1] eqn:Hf.
  - erewrite seq_normal by exact Hf.
    destruct (same (WriterM.monoid result) (WriterM.monoid this)) eqn:Hsame.
    + eff. intros [= <- <-]. now exists result.
    + discriminate.
  - erewrite seq_throw by exact Hf. discriminate.
Qed.

Lemma writer_chain {W A} (w : WriterM.Writer W A)
    (steps : list ((A -> A) * (A -> W))) (s : St) :
  WriterM.chain (V:=V) w steps s
  = (Normal (WriterM.mkWriter
               (WriterM.after_chain (WriterM.monoid w)
                  (WriterM.value w) (WriterM.log w) steps).1
               (WriterM.after_chain (WriterM.monoid w)
                  (WriterM.value w) (WriterM.log w) steps).2
               (WriterM.monoid w)), s).
Proof.
  revert w. induction steps as [|[h l] rest IH]; intros w.
  - now destruct w.
  - simpl. erewrite seq_normal.
    2:{ apply writer_bind_same with (result := @WriterM.make _ _ w A (h (WriterM.value w))
                                                 (l (WriterM.value w)));
        [reflexivity | apply same_refl]. }
    now rewrite IH.
Qed.

(** One more round of the factorial of the test suite. *)
Lemma factorial_succ (fresh : nat) (p : positive) (s : St) w :
  WriterM.factorial (V:=V) fresh p s = (Normal w, s) ->
  WriterM.monoid w = ListMonoid fresh ->
  WriterM.factorial (V:=V) fresh (Pos.succ p) s
  = (Normal (WriterM.mkWriter
               (WriterM.value w * Z.pos (Pos.succ p))%Z
               (WriterM.log w
                ++ [WriterM.temp (Z.pos (Pos.succ p))
                      (pretty (WriterM.value w * Z.pos (Pos.succ p))%Z)])
               (ListMonoid fresh)), s).
Proof.
  intros Hp Hm. unfold WriterM.factorial. rewrite Pos.peano_rect_succ.
  erewrite seq_normal by exact Hp.
  erewrite writer_bind_same; [|reflexivity|apply same_refl].
  now rewrite Hm.
Qed.
End WriterFacts.

(** The first revision of [bind] has no check: a continuation that answers
    on another monoid object gets its log combined by the receiver's
    monoid. *)
Lemma writer_legacy_bind_has_no_check :
  WriterLegacy.bind (St:=unit) (E:=unit)
    (WriterLegacy.tell (WriterLegacy.of_ 1%Z (MonoidM.ListMonoid 1)) ["a"])
    (fun v => ret (WriterLegacy.tell
                     (WriterLegacy.of_ v (MonoidM.ListMonoid 2)) ["b"])) tt
  = (Normal (WriterLegacy.mkWriter 1%Z ["a"; "b"] (MonoidM.ListMonoid 1)), tt).
Proof. reflexivity. Qed.

(** C7: the log grows in call order, old log first.  When the continuation
    of [bind] returns a Writer with log [w1] (on the receiver's monoid, for
    the revision that checks it), the result has the continuation's value
    and the log [monoid.combine(w0, w1)]; [tell(l)] gives the log
    [monoid.combine(w0, l)] and keeps the value and the monoid; a chain of
    [bind]s puts every entry to the right of the ones before it.  The
    factorial of 5 by five [bind]s on the string monoid has the value 120
    and the five entries concatenated in call order; the example in the
    documentation of [bind] has the value 10 and the log of its two lines in
    order, as its comments say; the factorial of the test suite, on the list monoid, has the value 120 and the five entries
    in call order. *)
Theorem writer_log_is_combined_old_first :
  (forall (St V W A B : Type) (this : WriterM.Writer W A)
          (func : A -> WriterM.Make W -> Eff St (Exn V) (WriterM.Writer W B))
          s result s',
      func (WriterM.value this) (WriterM.make this) s = (Normal result, s') ->
      MonoidM.same (WriterM.monoid result) (WriterM.monoid this) = true ->
      WriterM.bind this func s
      = (Normal (WriterM.mkWriter (WriterM.value result)
                   (MonoidM.combine (WriterM.monoid this)
                      (WriterM.log this) (WriterM.log result))
                   (WriterM.monoid this)), s'))
  /\ (forall (St E W A B : Type) (this : WriterLegacy.Writer W A)
             (func : A -> Eff St E (WriterLegacy.Writer W B)) s result s',
        func (WriterLegacy.value this) s = (Normal result, s') ->
        WriterLegacy.bind this func s
        = (Normal (WriterLegacy.mkWriter (WriterLegacy.value result)
                     (MonoidM.combine (WriterLegacy.monoid this)
                        (WriterLegacy.log this) (WriterLegacy.log result))
                     (WriterLegacy.monoid this)), s'))
  /\ (forall (W A : Type) (this : WriterM.Writer W A) (l : W),
        WriterM.tell this l
        = WriterM.mkWriter (WriterM.value this)
            (MonoidM.combine (WriterM.monoid this) (WriterM.log this) l)
            (WriterM.monoid this))
  /\ (forall (W A : Type) (this : WriterLegacy.Writer W A) (l : W),
        WriterLegacy.tell this l
        = WriterLegacy.mkWriter (WriterLegacy.value this)
            (MonoidM.combine (WriterLegacy.monoid this)
               (WriterLegacy.log this) l)
            (WriterLegacy.monoid this))
  /\ (forall (St V W A : Type) (w : WriterM.Writer W A)
             (h : A -> A) (l : A -> W) (rest : list ((A -> A) * (A -> W)))
             (s : St),
        exists w',
          WriterM.chain (V:=V) w ((h, l) :: rest) s = (Normal w', s)
          /\ WriterM.run w'
             = WriterM.after_chain (WriterM.monoid w)
                 (h (WriterM.value w))
                 (MonoidM.combine (WriterM.monoid w)
                    (WriterM.log w) (l (WriterM.value w)))
                 rest)
  /\ (forall (St V : Type) (s : St),
        exists w,
          WriterM.chain (V:=V) (WriterM.of_ 1%Z MonoidM.StringConcatMonoid)
            WriterM.factorial_steps s = (Normal w, s)
          /\ WriterM.run w
             = (120%Z, "Fac(1)=1Fac(2)=2Fac(3)=6Fac(4)=24Fac(5)=120"))
  /\ (forall (St V : Type) (s : St),
        WriterM.doc_example (V:=V) s
        = (Normal (WriterM.mkWriter 10%Z
                     ("Added 3" +:+ WriterM.lf +:+ "Doubled" +:+ WriterM.lf)
                     MonoidM.StringConcatMonoid), s))
  /\ (forall (St V : Type) (fresh : nat) (s : St),
        exists w,
          WriterM.factorial (V:=V) fresh 5 s = (Normal w, s)
          /\ WriterM.run w
             = (120%Z,
                ["Fac(1)=1"; "Fac(2)=2"; "Fac(3)=6"; "Fac(4)=24"; "Fac(5)=120"])).
Proof.
  repeat match goal with |- _ /\ _ => split end.
  - intros. now apply writer_bind_same.
  - intros St E W A B this func s result s' Hf.
    unfold WriterLegacy.bind. erewrite seq_normal by exact Hf. reflexivity.
  - reflexivity.
  - reflexivity.
  - intros. eexists. split; [apply writer_chain|].
    unfold WriterM.run. simpl.
    now destruct (WriterM.after_chain _ _ _ rest).
  - intros. eexists. split; [apply writer_chain | reflexivity].
  - reflexivity.
  - intros St V fresh s.
    exists (WriterM.mkWriter 120%Z
              ["Fac(1)=1"; "Fac(2)=2"; "Fac(3)=6"; "Fac(4)=24"; "Fac(5)=120"]
              (MonoidM.ListMonoid fresh)).
    split; [|reflexivity].
    assert (H1 : WriterM.factorial (St:=St) (V:=V) fresh 1 s
                 = (Normal (WriterM.mkWriter 1%Z ["Fac(1)=1"]
                              (MonoidM.ListMonoid fresh)), s))
      by reflexivity.
    pose proof (factorial_succ _ H1 eq_refl) as H2.
    pose proof (factorial_succ _ H2 eq_refl) as H3.
    pose proof (factorial_succ _ H3 eq_refl) as H4.
    pose proof (factorial_succ _ H4 eq_refl) as H5.
    exact H5.
Qed.

(** The first [bind] of the example in the documentation of [bind]. *)
Lemma writer_log_is_combined_old_first_witness :
  WriterM.bind (St:=unit) (V:=unit)
    (WriterM.of_ 2%Z MonoidM.StringConcatMonoid)
    (fun value make => ret (make Z (value + 3)%Z "Added 3")) tt
  = (Normal (WriterM.mkWriter 5%Z "Added 3" MonoidM.StringConcatMonoid), tt).
Proof.
  apply (proj1 writer_log_is_combined_old_first unit unit string Z Z
           (WriterM.of_ 2%Z MonoidM.StringConcatMonoid)
           (fun value make => ret (make Z (value + 3)%Z "Added 3")) tt
           (WriterM.mkWriter 5%Z "Added 3" MonoidM.StringConcatMonoid) tt).
  - reflexivity.
  - reflexivity.
Defined.

(** C8: [bind] checks the monoid of the continuation's result against the
    receiver's, by identity.  When they differ the call throws the
    assertion error and returns no Writer; when [bind] returns a Writer the
    two were the same object, so logs of different monoids are never
    combined. *)
Theorem writer_bind_rejects_another_monoid :
  forall (St V W A B : Type) (this : WriterM.Writer W A)
         (func : A -> WriterM.Make W -> Eff St (Exn V) (WriterM.Writer W B)) s,
    (forall result s',
        func (WriterM.value this) (WriterM.make this) s = (Normal result, s') ->
        MonoidM.same (WriterM.monoid result) (WriterM.monoid this) = false ->
        WriterM.bind this func s
        = (Throw (AssertionError "Must have the same monoid"), s'))
    /\ (forall w s',
          WriterM.bind this func s = (Normal w, s') ->
          exists result,
            func (WriterM.value this) (WriterM.make this) s = (Normal result, s')
            /\ MonoidM.same (WriterM.monoid result) (WriterM.monoid this) = true
            /\ w = WriterM.mkWriter (WriterM.value result)
                     (MonoidM.combine (WriterM.monoid this)
                        (WriterM.log this) (WriterM.log result))
                     (WriterM.monoid this)).
Proof.
  intros. split.
  - intros. now apply writer_bind_mismatch with (result := result).
  - apply writer_bind_normal_inv.
Qed.

(** Two calls of [ListMonoid()] give two objects (here at 1 and at 2): a
    continuation that builds its Writer with a [ListMonoid()] of its own
    fails the check. *)
Lemma writer_bind_rejects_another_monoid_witness :
  WriterM.bind (St:=unit) (V:=unit)
    (WriterM.tell (WriterM.of_ 1%Z (MonoidM.ListMonoid 1)) ["a"])
    (fun v _ => ret (WriterM.tell (WriterM.of_ v (MonoidM.ListMonoid 2)) ["b"]))
    tt
  = (Throw (AssertionError "Must have the same monoid"), tt).
Proof.
  apply (proj1 (writer_bind_rejects_another_monoid
                  (WriterM.tell (WriterM.of_ 1%Z (MonoidM.ListMonoid 1)) ["a"])
                  (fun v _ => ret (WriterM.tell
                                     (WriterM.of_ v (MonoidM.ListMonoid 2))
                                     ["b"]))
                  tt)
           (WriterM.tell (WriterM.of_ 1%Z (MonoidM.ListMonoid 2)) ["b"]) tt).
  - reflexivity.
  - reflexivity.
Defined.

(** ** The matcher of ADTs.ts *)

Section ADTFacts.
Context {St V P D : Type} (key_of : P -> string).
Implicit Types (value : gmap string (ADTs.Val P)).
Implicit Types
  (handlers : gmap string (gmap string (ADTs.Val P) -> Eff St (Exn V) D)).
Implicit Types (inherited : gmap string (@ADTs.Member St V P D)).

Lemma match_own inherited value handlers
    (handler : gmap string (ADTs.Val P) -> Eff St (Exn V) D) s :
  handlers !! ADTs.discriminant key_of value = Some handler ->
  ADTs.match_ key_of inherited value handlers s = handler value s.
Proof. intros H. unfold ADTs.match_. now rewrite H. Qed.

Lemma match_inherited inherited value handlers call s :
  handlers !! ADTs.discriminant key_of value = None ->
  inherited !! ADTs.discriminant key_of value = Some (ADTs.Callable call) ->
  ADTs.match_ key_of inherited value handlers s = call handlers value s.
Proof. intros H Hi. unfold ADTs.match_. now rewrite H, Hi. Qed.

Lemma match_not_a_function inherited value handlers s :
  handlers !! ADTs.discriminant key_of value = None ->
  inherited !! ADTs.discriminant key_of value = None
  \/ inherited !! ADTs.discriminant key_of value = Some ADTs.NotCallable ->
  ADTs.match_ key_of inherited value handlers s
  = (Throw (TypeError "handlers[value._type] is not a function"), s).
Proof.
  intros H [Hi|Hi]; unfold ADTs.match_; now rewrite H, Hi.
Qed.



End ADTFacts.

(** C10: [match] runs the handler stored under the value's discriminant
    when the handler map has one of its own.  It is not exhaustive: the
    property access [handlers[value._type]] also finds what the map
    inherits, so for a map that lacks the handler of a variant named like
    an inherited function, [match] calls that function and returns its
    answer instead of failing; only when nothing callable is found does the
    call throw a [TypeError].  With the handlers of an object literal, a
    value of a variant ["toString"] and no handler for it, [match] returns
    ["[object Object]"], where the claim asks for a rejection. *)
Theorem adt_match_falls_through_to_inherited_member :
  (forall (St V P D : Type) (key_of : P -> string)
          (inherited : gmap string (@ADTs.Member St V P D))
          (value : gmap string (ADTs.Val P))
          (handlers : gmap string (gmap string (ADTs.Val P) -> Eff St (Exn V) D))
          (s : St),
      (forall handler : gmap string (ADTs.Val P) -> Eff St (Exn V) D,
          handlers !! ADTs.discriminant key_of value = Some handler ->
          ADTs.match_ key_of inherited value handlers s = handler value s)
      /\ (forall call,
            handlers !! ADTs.discriminant key_of value = None ->
            inherited !! ADTs.discriminant key_of value
            = Some (ADTs.Callable call) ->
            ADTs.match_ key_of inherited value handlers s
            = call handlers value s)
      /\ (handlers !! ADTs.discriminant key_of value = None ->
          inherited !! ADTs.discriminant key_of value = None
          \/ inherited !! ADTs.discriminant key_of value
             = Some ADTs.NotCallable ->
          ADTs.match_ key_of inherited value handlers s
          = (Throw (TypeError "handlers[value._type] is not a function"), s)))
  /\ (forall (St V P : Type) (key_of : P -> string)
             (circle : gmap string (ADTs.Val P) -> Eff St (Exn V) string)
             (s : St),
        ADTs.match_ key_of ADTs.ObjectPrototype_toString
          (ADTs.makeConstructors "toString" ∅)
          {[ "Circle" := circle ]} s
        = (Normal "[object Object]", s)).
Proof.
  split.
  - intros St V P D key_of inherited value handlers s. split; [|split].
    + intros handler. apply match_own.
    + intros call. apply match_inherited.
    + apply match_not_a_function.
  - intros St V P key_of circle s.
    apply (@match_inherited St V P string key_of
             ADTs.ObjectPrototype_toString
             (ADTs.makeConstructors "toString" ∅) {[ "Circle" := circle ]}
             (fun _ _ => ret "[object Object]") s); reflexivity.
Qed.

(** The same handler map, for circles only, given a circle and given a
    square: the circle reaches its handler, the square finds nothing to
    call. *)
Lemma adt_match_falls_through_to_inherited_member_witness :
  ADTs.match_ (St:=unit) (V:=unit) (fun _ : Z => "") ADTs.ObjectPrototype_toString
    (ADTs.makeConstructors "Circle" {[ "radius" := ADTs.Other 2%Z ]})
    {[ "Circle" := fun _ => ret "a circle" ]} tt
  = (Normal "a circle", tt)
  /\ ADTs.match_ (St:=unit) (V:=unit) (fun _ : Z => "")
       ADTs.ObjectPrototype_toString
       (ADTs.makeConstructors "Square" {[ "side" := ADTs.Other 2%Z ]})
       {[ "Circle" := fun _ => ret "a circle" ]} tt
     = (Throw (TypeError "handlers[value._type] is not a function"), tt).
Proof.
  split.
  - apply (proj1 (proj1 adt_match_falls_through_to_inherited_member
                    unit unit Z string (fun _ : Z => "")
                    ADTs.ObjectPrototype_toString
                    (ADTs.makeConstructors "Circle"
                       {[ "radius" := ADTs.Other 2%Z ]})
                    {[ "Circle" := fun _ => ret "a circle" ]} tt)
             (fun _ => ret "a circle")).
    reflexivity.
  - apply (proj2 (proj2 (proj1 adt_match_falls_through_to_inherited_member
                    unit unit Z string (fun _ : Z => "")
                    ADTs.ObjectPrototype_toString
                    (ADTs.makeConstructors "Square"
                       {[ "side" := ADTs.Other 2%Z ]})
                    {[ "Circle" := fun _ => ret "a circle" ]} tt))).
    + reflexivity.
    + left. reflexivity.
Defined.

(** * Further properties of the code *)

(** ** List: [map], [filter] and the folds *)

Section ListMore.
Context {St E : Type}.

Lemma list_map_pure_fn {T D} (l : ListM.List T) (f : T -> D) (s : St) :
  ListM.map (E:=E) l (pure_fn f) s
  = (Normal (ListM.of_list (List.map f (ListM.to_list l))), s).
Proof.
  induction l as [h t IH|]; simpl; [|reflexivity].
  rewrite seq_pure_fn. erewrite seq_normal by apply IH. reflexivity.
Qed.

Lemma list_filter_pure_fn {T} (l : ListM.List T) (p : T -> bool) (s : St) :
  ListM.filter (E:=E) l (pure_fn p) s
  = (Normal (ListM.of_list (List.filter p (ListM.to_list l))), s).
Proof.
  induction l as [h t IH|]; simpl; [|reflexivity].
  rewrite seq_pure_fn. destruct (p h).
  - erewrite seq_normal by apply IH. reflexivity.
  - apply IH.
Qed.

Lemma list_foldLeft_pure {T D} (l : ListM.List T) (seed : D) (f : D -> T -> D)
    (s : St) :
  ListM.foldLeft (E:=E) l seed (fun acc head => ret (f acc head)) s
  = (Normal (fold_left f (ListM.to_list l) seed), s).
Proof.
  revert seed. induction l as [h t IH|]; intros seed; simpl; [|reflexivity].
  rewrite seq_ret_l. apply IH.
Qed.
End ListMore.

(** X1: [List.map] with a function without effects gives the images of the
    elements in the original order (so as many as there were) and leaves the
    store alone; mapping the identity gives the list back, and two maps in
    a row are the map of the composition. *)
Theorem list_map_elementwise :
  forall (St E T D F : Type) (l : ListM.List T) (f : T -> D) (g : D -> F)
         (s : St),
    (exists r,
        ListM.map (E:=E) l (pure_fn f) s = (Normal r, s)
        /\ ListM.to_list r = List.map f (ListM.to_list l)
        /\ length (ListM.to_list r) = length (ListM.to_list l))
    /\ ListM.map (E:=E) l (pure_fn (fun x => x)) s = (Normal l, s)
    /\ (let* m1 := ListM.map (E:=E) l (pure_fn f) in ListM.map m1 (pure_fn g)) s
       = ListM.map l (pure_fn (fun x => g (f x))) s.
Proof.
  intros. split; [|split].
  - eexists. split; [apply list_map_pure_fn|].
    rewrite to_list_of_list. split; [reflexivity|].
    now rewrite length_map.
  - rewrite list_map_pure_fn, List.map_id. now rewrite of_list_to_list.
  - erewrite seq_normal by apply list_map_pure_fn.
    rewrite !list_map_pure_fn, to_list_of_list. now rewrite List.map_map.
Qed.

(** X2: [List.map(func)] is [bind] with the function that wraps the result
    of [func] in a one-element list, for every function, whatever it writes
    or throws: same result, same store, same throw. *)
Theorem list_map_is_bind_of_unit :
  forall (St E T D : Type) (l : ListM.List T) (func : T -> Eff St E D) (s : St),
    ListM.map l func s
    = ListM.bind l
        (fun x => let* y := func x in ret (ListM.Pair y ListM.Empty)) s.
Proof.
  intros St E T D l func. induction l as [h t IH|]; intros s; simpl.
  - unfold seq. destruct (func h s) as [[y|e] s1]; [|reflexivity].
    simpl. rewrite IH.
    now destruct (ListM.bind t _ s1) as [[r|e] s2].
  - reflexivity.
Qed.

(** X3: [List.filter] with a predicate without effects keeps, in the
    original order, exactly the elements the predicate holds of; filtering
    the result again changes nothing. *)
Theorem list_filter_keeps_matching :
  forall (St E T : Type) (l : ListM.List T) (p : T -> bool) (s : St),
    exists r,
      ListM.filter (E:=E) l (pure_fn p) s = (Normal r, s)
      /\ ListM.to_list r = List.filter p (ListM.to_list l)
      /\ (forall x, In x (ListM.to_list r)
                    <-> In x (ListM.to_list l) /\ p x = true)
      /\ ListM.filter (E:=E) r (pure_fn p) s = (Normal r, s).
Proof.
  intros. eexists. split; [apply list_filter_pure_fn|].
  rewrite to_list_of_list. split; [reflexivity|]. split.
  - intros x. apply List.filter_In.
  - rewrite list_filter_pure_fn, to_list_of_list.
    f_equal. f_equal. f_equal.
    induction (ListM.to_list l) as [|a xs IH]; simpl; [reflexivity|].
    destruct (p a) eqn:Hp; simpl; [rewrite Hp; now f_equal | exact IH].
Qed.

(** X4: with a combining function without effects, [foldLeft] is the left
    fold of the elements from the seed, and [foldRight] is [foldLeft] over
    the elements in reverse order: both pass (accumulator, element), the one
    from the head on, the other from the last element back. *)
Theorem list_foldRight_is_foldLeft_reversed :
  forall (St E T D : Type) (l : ListM.List T) (seed : D) (f : D -> T -> D)
         (s : St),
    ListM.foldLeft (E:=E) l seed (fun acc head => ret (f acc head)) s
    = (Normal (fold_left f (ListM.to_list l) seed), s)
    /\ ListM.foldRight (E:=E) l seed (fun acc head => ret (f acc head)) s
       = ListM.foldLeft (ListM.of_list (rev (ListM.to_list l))) seed
           (fun acc head => ret (f acc head)) s.
Proof.
  intros. split; [apply list_foldLeft_pure|].
  rewrite foldRight_pure, list_foldLeft_pure, to_list_of_list.
  rewrite <- (rev_involutive (ListM.to_list l)) at 1.
  now rewrite fold_left_rev_right.
Qed.

(** X5: the folds call the combining function once per element:
    [foldLeft] on the elements from first to last, [foldRight] from last to
    first. *)
Theorem list_folds_call_order :
  forall (E T D : Type) (l : ListM.List T) (seed : D) (f : D -> T -> D)
         (calls : list T),
    ListM.foldLeft (E:=E) l seed (Examples.traced_fold f) calls
    = (Normal (fold_left f (ListM.to_list l) seed), calls ++ ListM.to_list l)
    /\ ListM.foldRight (E:=E) l seed (Examples.traced_fold f) calls
       = (Normal (fold_right (fun x acc => f acc x) seed (ListM.to_list l)),
          calls ++ rev (ListM.to_list l)).
Proof.
  intros E T D l seed f. split.
  - revert seed calls. induction l as [h t IH|]; intros seed calls; simpl.
    + erewrite seq_normal by reflexivity. rewrite IH.
      now rewrite <- app_assoc.
    + unfold ret. now rewrite app_nil_r.
  - revert calls. induction l as [h t IH|]; intros calls; simpl.
    + erewrite seq_normal by apply IH.
      unfold Examples.traced_fold. now rewrite <- app_assoc.
    + unfold ret. now rewrite app_nil_r.
Qed.

(** X6: [List.bind] and [List.map] catch nothing: with a function that
    throws on some elements and has no other effect, the call throws what
    the function throws on the first such element, and it returns (the
    concatenation, the images) only when there is none. *)
Theorem list_bind_throws_at_first_offender :
  forall (St E T D : Type) (l : ListM.List T) (bad : T -> bool) (err : T -> E)
         (s : St),
    (forall f : T -> ListM.List D,
        ListM.bind l (Examples.throwing_on bad err f) s
        = match List.find bad (ListM.to_list l) with
          | Some x => (Throw (err x), s)
          | None => (Normal (ListM.flatten f l), s)
          end)
    /\ (forall f : T -> D,
          ListM.map l (Examples.throwing_on bad err f) s
          = match List.find bad (ListM.to_list l) with
            | Some x => (Throw (err x), s)
            | None =>
                (Normal (ListM.of_list (List.map f (ListM.to_list l))), s)
            end).
Proof.
  intros St E T D l bad err s. split; intros f.
  - induction l as [h t IH|]; simpl; [|reflexivity].
    unfold Examples.throwing_on at 1. destruct (bad h).
    + reflexivity.
    + rewrite seq_ret_l. unfold seq. rewrite IH.
      now destruct (List.find bad (ListM.to_list t)).
  - induction l as [h t IH|]; simpl; [|reflexivity].
    unfold Examples.throwing_on at 1. destruct (bad h).
    + reflexivity.
    + rewrite seq_ret_l. unfold seq. rewrite IH.
      now destruct (List.find bad (ListM.to_list t)).
Qed.

(** ** Option *)

(** X7: [Option.map] is a functor map for every function, with or without
    effects: mapping the identity gives the Option back, and two maps in a
    row behave as the one map of the two functions run in a row (same
    result, same store, same throw); [None] stays [None] and the function
    is not called. *)
Theorem option_map_functor :
  forall (St E A B C : Type) (m : OptionM.Option A)
         (f : A -> Eff St E B) (g : B -> Eff St E C) (s : St),
    OptionM.map (E:=E) m (pure_fn (fun x => x)) s = (Normal m, s)
    /\ (let* m1 := OptionM.map m f in OptionM.map m1 g) s
       = OptionM.map m (fun x => let* b := f x in g b) s
    /\ OptionM.map OptionM.None f s = (Normal OptionM.None, s).
Proof.
  intros. split; [|split].
  - now destruct m.
  - destruct m as [x|]; [|reflexivity].
    simpl. unfold seq. now destruct (f x s) as [[b|e] s1].
  - reflexivity.
Qed.

(** X8: [Option.orElse] evaluates its fallback only on [None]: a [Some]
    comes back as it is with the store untouched, whatever the fallback
    would do, and on [None] the call is the fallback.  Chaining is
    associative: [a.orElse(b).orElse(c)] and
    [a.orElse(() => b().orElse(c))] agree in result, store and throw. *)
Theorem option_orElse_lazy_and_associative :
  forall (St E A : Type) (a : OptionM.Option A)
         (b c : Eff St E (OptionM.Option A)) (s : St),
    (forall x, OptionM.orElse (OptionM.Some x) b s = (Normal (OptionM.Some x), s))
    /\ OptionM.orElse OptionM.None b s = b s
    /\ (let* r := OptionM.orElse a b in OptionM.orElse r c) s
       = OptionM.orElse a (let* r := b in OptionM.orElse r c) s.
Proof.
  intros. split; [|split]; try reflexivity.
  now destruct a.
Qed.

(** X9: [Option.fromNullable] gives [None] for [null] and for [undefined]
    and for nothing else; every other value, falsy or not, comes back in a
    [Some], so [getOrElse] after it returns the value when there is one and
    the default otherwise.  [isSome] and [isNone] are complementary. *)
Theorem option_fromNullable_none_iff_nullish :
  forall (A : Type) (value : OptionM.Nullable A) (defaultValue : A),
    (OptionM.isNone (OptionM.fromNullable value) = true
     <-> value = OptionM.null \/ value = OptionM.undefined)
    /\ (forall v, OptionM.fromNullable value = OptionM.Some v
                  <-> value = OptionM.present v)
    /\ OptionM.getOrElse (OptionM.fromNullable value) defaultValue
       = match value with
         | OptionM.present v => v
         | _ => defaultValue
         end
    /\ OptionM.isSome (OptionM.fromNullable value)
       = negb (OptionM.isNone (OptionM.fromNullable value)).
Proof.
  intros A value d. destruct value as [| |v]; simpl.
  - repeat split; auto; try discriminate.
  - repeat split; auto; try discriminate.
  - repeat split; try discriminate; try (intros [H|H]; discriminate);
      try (intros [= ->]; reflexivity).
Qed.

(** ** Either *)

(** X10: [Either.map] is a functor map for every function, with or without
    effects; a [Left] stays the same [Left] and the function is not
    called. *)
Theorem either_map_functor :
  forall (St E L A B C : Type) (m : EitherM.Either L A)
         (f : A -> Eff St E B) (g : B -> Eff St E C) (s : St),
    EitherM.map (E:=E) m (pure_fn (fun x => x)) s = (Normal m, s)
    /\ (let* m1 := EitherM.map m f in EitherM.map m1 g) s
       = EitherM.map m (fun x => let* b := f x in g b) s
    /\ (forall l : L,
          EitherM.map (EitherM.Left l) f s = (Normal (EitherM.Left l), s)).
Proof.
  intros. split; [|split].
  - now destruct m.
  - destruct m as [x|l]; [|reflexivity].
    simpl. unfold seq. now destruct (f x s) as [[b|e] s1].
  - reflexivity.
Qed.

(** X11: [ensure(left)(predicate)] with a predicate without effects gives
    [Right(v)] exactly when the receiver is [Right(v)] and the predicate
    holds of [v]; a [Right] that fails becomes [Left(left)]; a [Left] comes
    back as it is and the predicate is not evaluated; ensuring twice is
    ensuring once. *)
Theorem either_ensure_keeps_right_iff_predicate :
  forall (St E L R : Type) (this : EitherM.Either L R) (left : L)
         (p : R -> bool) (s : St),
    exists r,
      EitherM.ensure (E:=E) this left (pure_fn p) s = (Normal r, s)
      /\ (forall v, r = EitherM.Right v
                    <-> this = EitherM.Right v /\ p v = true)
      /\ (forall v, this = EitherM.Right v -> p v = false ->
                    r = EitherM.Left left)
      /\ (forall (l : L) (predicate : R -> Eff St E bool),
            EitherM.ensure (EitherM.Left l) left predicate s
            = (Normal (EitherM.Left l), s))
      /\ EitherM.ensure (E:=E) r left (pure_fn p) s = (Normal r, s).
Proof.
  intros St E L R this left p s. destruct this as [x|l].
  - destruct (p x) eqn:Hp.
    + exists (EitherM.Right x).
      assert (Hrun : EitherM.ensure (E:=E) (EitherM.Right x) left (pure_fn p) s
                     = (Normal (EitherM.Right x), s)).
      { simpl. now rewrite seq_pure_fn, Hp. }
      split; [exact Hrun|]. split; [|split; [|split]].
      * intros v. split.
        -- intros [= <-]. now split.
        -- now intros [H _].
      * intros v [= <-] Hv. congruence.
      * reflexivity.
      * exact Hrun.
    + exists (EitherM.Left left).
      split; [simpl; now rewrite seq_pure_fn, Hp|].
      split; [|split; [|split]].
      * intros v. split; [discriminate|].
        intros [[= <-] Hv]. congruence.
      * reflexivity.
      * reflexivity.
      * reflexivity.
  - exists (EitherM.Left l).
    split; [reflexivity|]. split; [|split; [|split]].
    + intros v. split; [discriminate|]. now intros [H _].
    + intros v H. discriminate.
    + reflexivity.
    + reflexivity.
Qed.

(** An [ensure] that fails: [Either.asRight(5).ensure("bad")(x => x > 10)]. *)
Lemma either_ensure_keeps_right_iff_predicate_witness :
  exists r,
    EitherM.ensure (St:=unit) (E:=unit) (EitherM.asRight 5%Z) "bad"
      (pure_fn (fun x => (10 <? x)%Z)) tt = (Normal r, tt)
    /\ r = EitherM.Left "bad".
Proof.
  destruct (@either_ensure_keeps_right_iff_predicate unit unit string Z
              (EitherM.asRight 5%Z) "bad" (fun x => (10 <? x)%Z) tt)
    as (r & Hrun & _ & Hfail & _).
  exists r. split; [exact Hrun|].
  apply (Hfail 5%Z); reflexivity.
Defined.

(** X12: [Either.fromOption] maps [Some] to [Right] and [None] to
    [Left(left)], so it is a [Right] exactly when the Option is a [Some],
    [getOrElse] gives the same before and after, and it commutes with
    [bind]: binding then converting is converting then binding, for every
    function. *)
Theorem either_fromOption_commutes_with_bind :
  forall (St E L A B : Type) (opt : OptionM.Option A) (left : L)
         (defaultValue : A) (f : A -> Eff St E (OptionM.Option B)) (s : St),
    EitherM.isRight (EitherM.fromOption opt left) = OptionM.isSome opt
    /\ EitherM.isLeft (EitherM.fromOption opt left) = OptionM.isNone opt
    /\ EitherM.getOrElse (EitherM.fromOption opt left) defaultValue
       = OptionM.getOrElse opt defaultValue
    /\ (let* o := OptionM.bind opt f in ret (EitherM.fromOption o left)) s
       = EitherM.bind (EitherM.fromOption opt left)
           (fun x => let* o := f x in ret (EitherM.fromOption o left)) s.
Proof.
  intros. destruct opt as [x|]; repeat split; reflexivity.
Qed.

(** X13: [Either.orElse] evaluates its fallback only on a [Left]: a
    [Right] comes back as it is with the store untouched, on a [Left] the
    call is the fallback, and chaining is associative. *)
Theorem either_orElse_lazy_and_associative :
  forall (St E L R : Type) (a : EitherM.Either L R)
         (b c : Eff St E (EitherM.Either L R)) (s : St),
    (forall x, EitherM.orElse (EitherM.Right x) b s
               = (Normal (EitherM.Right x), s))
    /\ (forall l, EitherM.orElse (EitherM.Left l) b s = b s)
    /\ (let* r := EitherM.orElse a b in EitherM.orElse r c) s
       = EitherM.orElse a (let* r := b in EitherM.orElse r c) s.
Proof.
  intros. split; [|split]; try reflexivity.
  now destruct a.
Qed.

(** X14: on Option and Either the laws of [bind] need no purity: left
    identity, right identity and associativity hold for all functions,
    whatever they write or throw, as equalities of result, store and
    throw. *)
Theorem option_either_bind_laws_with_effects :
  forall (St E L A B C : Type) (s : St),
    (forall (a : A) (f : A -> Eff St E (OptionM.Option B)),
        OptionM.bind (OptionM.pure a) f s = f a s)
    /\ (forall (m : OptionM.Option A),
          OptionM.bind (E:=E) m (pure_fn OptionM.pure) s = (Normal m, s))
    /\ (forall (m : OptionM.Option A) (f : A -> Eff St E (OptionM.Option B))
               (g : B -> Eff St E (OptionM.Option C)),
          (let* m1 := OptionM.bind m f in OptionM.bind m1 g) s
          = OptionM.bind m (fun x => let* m1 := f x in OptionM.bind m1 g) s)
    /\ (forall (a : A) (f : A -> Eff St E (EitherM.Either L B)),
          EitherM.bind (EitherM.asRight a) f s = f a s)
    /\ (forall (m : EitherM.Either L A),
          EitherM.bind (E:=E) m (pure_fn EitherM.asRight) s = (Normal m, s))
    /\ (forall (m : EitherM.Either L A) (f : A -> Eff St E (EitherM.Either L B))
               (g : B -> Eff St E (EitherM.Either L C)),
          (let* m1 := EitherM.bind m f in EitherM.bind m1 g) s
          = EitherM.bind m (fun x => let* m1 := f x in EitherM.bind m1 g) s).
Proof.
  intros St E L A B C s.
  repeat match goal with |- _ /\ _ => split end.
  - reflexivity.
  - intros m. now destruct m.
  - intros m f g. now destruct m.
  - reflexivity.
  - intros m. now destruct m.
  - intros m f g. now destruct m.
Qed.

(** ** Try *)

(** X15: on Try, [bind] is associative for all functions, throwing ones
    included; left identity, [Success(a).bind(f) == f(a)], holds exactly
    when [f(a)] returns: when it throws, the left side is a [Failure] and
    the right side a throw. *)
Theorem try_bind_associative_with_throws :
  forall (St E A B C : Type) (s : St),
    (forall (m : TryM.Try A E) (f : A -> Eff St E (TryM.Try B E))
            (g : B -> Eff St E (TryM.Try C E)),
        (let* m1 := TryM.bind m f in TryM.bind m1 g) s
        = TryM.bind m (fun x => let* m1 := f x in TryM.bind m1 g) s)
    /\ (forall (a : A) (f : A -> Eff St E (TryM.Try B E)),
          TryM.bind (TryM.Success a) f s = f a s
          <-> exists t s', f a s = (Normal t, s')).
Proof.
  intros St E A B C s. split.
  - intros m f g. destruct m as [x|e]; [|reflexivity].
    simpl. unfold try_catch, seq.
    destruct (f x s) as [[t|e] s1]; [|reflexivity].
    destruct (try_bind_returns t g s1) as (r & s2 & Hr). now rewrite Hr.
  - intros a f. split.
    + intros H. rewrite <- H. apply try_bind_returns.
    + intros (t & s' & H). now rewrite try_bind_Success, H.
Qed.

(** X16: [Try.map] is [bind] with the result wrapped in a [Success], and it
    is a functor map, for all functions, throwing ones included: the
    identity gives the Try back, two maps in a row are the map of the two
    functions run in a row. *)
Theorem try_map_functor :
  forall (St E A B C : Type) (m : TryM.Try A E)
         (f : A -> Eff St E B) (g : B -> Eff St E C) (s : St),
    TryM.map m f s
    = TryM.bind m (fun x => let* b := f x in ret (TryM.Success b)) s
    /\ TryM.map m (pure_fn (fun x => x)) s = (Normal m, s)
    /\ (let* m1 := TryM.map m f in TryM.map m1 g) s
       = TryM.map m (fun x => let* b := f x in g b) s.
Proof.
  intros. split; [|split].
  - now destruct m.
  - now destruct m.
  - destruct m as [x|e]; [|reflexivity].
    rewrite try_map_Success. unfold seq at 1.
    rewrite try_map_Success. unfold seq.
    destruct (f x s) as [[b|e] s1]; [|reflexivity].
    rewrite try_map_Success. now destruct (g b s1) as [[c|e] s2].
Qed.

(** X17: [recover] is [recoverWith] with the result wrapped in a
    [Success], for every function; with a function that does not throw,
    [recover] always gives a [Success] (of the value on a [Success], of the
    function of the error on a [Failure]), so [getOrElse] after it never
    returns its default. *)
Theorem try_recover_always_succeeds :
  forall (St E A : Type) (this : TryM.Try A E) (s : St),
    (forall func : E -> Eff St E A,
        TryM.recover this func s
        = TryM.recoverWith this
            (fun e => let* a := func e in ret (TryM.Success a)) s)
    /\ (forall (f : E -> A) (defaultValue : A),
          exists r,
            TryM.recover this (pure_fn f) s = (Normal r, s)
            /\ r = TryM.Success (match this with
                                 | TryM.Success x => x
                                 | TryM.Failure e => f e
                                 end)
            /\ TryM.getOrElse r defaultValue
               = match this with
                 | TryM.Success x => x
                 | TryM.Failure e => f e
                 end).
Proof.
  intros St E A this s. split.
  - intros func. now destruct this.
  - intros f d. destruct this as [x|e]; eexists; repeat split.
Qed.

(** ** IO *)

(** X18: [IO.map] runs as [bind] with the result put in [IO.of], and it is
    a functor map, for all functions: mapping the identity runs as the
    receiver, two maps in a row run as the map of the two functions run in
    a row.  Building these [IO]s leaves the store alone. *)
Theorem io_map_functor :
  forall (St E A B C : Type) (io : IOM.IO St E A)
         (f : A -> Eff St E B) (g : B -> Eff St E C) (s : St),
    (exists r1 r2,
        IOM.map io f s = (Normal r1, s)
        /\ IOM.bind io (fun x => let* b := f x in ret (IOM.of_ b)) s
           = (Normal r2, s)
        /\ forall s', IOM.runUnsafe r1 s' = IOM.runUnsafe r2 s')
    /\ (exists r,
          IOM.map io (pure_fn (fun x => x)) s = (Normal r, s)
          /\ forall s', IOM.runUnsafe r s' = IOM.runUnsafe io s')
    /\ (exists r1 r2,
          (let* m1 := IOM.map io f in IOM.map m1 g) s = (Normal r1, s)
          /\ IOM.map io (fun x => let* b := f x in g b) s = (Normal r2, s)
          /\ forall s', IOM.runUnsafe r1 s' = IOM.runUnsafe r2 s').
Proof.
  intros. split; [|split].
  - eexists _, _. split; [reflexivity|]. split; [reflexivity|].
    intros s'. unfold IOM.runUnsafe. simpl. unfold seq.
    destruct (IOM.effect io s') as [[a|e] s1]; [|reflexivity].
    now destruct (f a s1) as [[b|e] s2].
  - eexists. split; [reflexivity|].
    intros s'. unfold IOM.runUnsafe. simpl. unfold seq.
    now destruct (IOM.effect io s') as [[a|e] s1].
  - eexists _, _. split; [reflexivity|]. split; [reflexivity|].
    intros s'. unfold IOM.runUnsafe. simpl. unfold seq.
    destruct (IOM.effect io s') as [[a|e] s1]; [|reflexivity].
    now destruct (f a s1) as [[b|e] s2].
Qed.

(** X19: [IO] catches nothing and runs in order.  [IO.from(thunk)] runs as
    [thunk]; in the run of [io.bind(func)] the effect of [io] comes first:
    when it throws, the run throws the same value with the store the effect
    left, for every [func] (so [func] was not called); when [func] throws
    after it, the run throws that with the store the two left. *)
Theorem io_run_propagates_throws :
  forall (St E A B : Type) (io : IOM.IO St E A)
         (func : A -> Eff St E (IOM.IO St E B)) (s : St),
    (forall thunk : Eff St E A,
        exists r, IOM.from thunk s = (Normal r, s)
                  /\ forall s', IOM.runUnsafe r s' = thunk s')
    /\ exists bound,
         IOM.bind io func s = (Normal bound, s)
         /\ (forall s0 e s1,
                IOM.runUnsafe io s0 = (Throw e, s1) ->
                IOM.runUnsafe bound s0 = (Throw e, s1))
         /\ (forall s0 a s1 e s2,
                IOM.runUnsafe io s0 = (Normal a, s1) ->
                func a s1 = (Throw e, s2) ->
                IOM.runUnsafe bound s0 = (Throw e, s2))
         /\ (forall s0 a s1 next s2,
                IOM.runUnsafe io s0 = (Normal a, s1) ->
                func a s1 = (Normal next, s2) ->
                IOM.runUnsafe bound s0 = IOM.runUnsafe next s2).
Proof.
  intros St E A B io func s. split.
  - intros thunk. eexists. split; reflexivity.
  - eexists. split; [reflexivity|]. split; [|split].
    + intros s0 e s1 H. unfold IOM.runUnsafe in *. simpl.
      now erewrite seq_throw by exact H.
    + intros s0 a s1 e s2 H Hf. unfold IOM.runUnsafe in *. simpl.
      erewrite seq_normal by exact H. now erewrite seq_throw by exact Hf.
    + intros s0 a s1 next s2 H Hf. unfold IOM.runUnsafe in *. simpl.
      erewrite seq_normal by exact H. now erewrite seq_normal by exact Hf.
Qed.

(** An effect that throws after it has written: the bound [IO] throws the
    same and the function, which would write 100, has not run. *)
Lemma io_run_propagates_throws_witness :
  exists bound,
    IOM.bind (IOM.mkIO (fun a : Z => (Throw "boom", (a + 1)%Z)))
      (fun v : Z => fun _ : Z => (Normal (IOM.of_ v), 100%Z)) 0%Z
    = (Normal bound, 0%Z)
    /\ IOM.runUnsafe bound 0%Z = (Throw "boom", 1%Z).
Proof.
  destruct (proj2 (@io_run_propagates_throws Z string Z Z
              (IOM.mkIO (fun a : Z => (Throw "boom", (a + 1)%Z)))
              (fun v : Z => fun _ : Z => (Normal (IOM.of_ v), 100%Z)) 0%Z))
    as (bound & Hb & Hthrow & _).
  exists bound. split; [exact Hb|].
  apply Hthrow. reflexivity.
Defined.

(** X20: on IO, [bind] is associative for all functions, with effects or
    throws: [m.bind(f).bind(g)] and [m.bind(x => f(x).bind(g))] are built
    without touching the store and run alike from every store. *)
Theorem io_bind_associative_with_effects :
  forall (St E A B C : Type) (m : IOM.IO St E A)
         (f : A -> Eff St E (IOM.IO St E B))
         (g : B -> Eff St E (IOM.IO St E C)) (s : St),
    exists r1 r2,
      (let* m1 := IOM.bind m f in IOM.bind m1 g) s = (Normal r1, s)
      /\ IOM.bind m (fun x => let* m1 := f x in IOM.bind m1 g) s
         = (Normal r2, s)
      /\ forall s', IOM.runUnsafe r1 s' = IOM.runUnsafe r2 s'.
Proof.
  intros. eexists _, _. split; [reflexivity|]. split; [reflexivity|].
  intros s'. unfold IOM.runUnsafe. simpl. unfold seq.
  destruct (IOM.effect m s') as [[a|e] s1]; [|reflexivity].
  destruct (f a s1) as [[n|e] s2]; [|reflexivity].
  reflexivity.
Qed.

(** ** Writer and Monoid *)

Section WriterMore.
Import MonoidM.

Lemma tell_all_fold {W A} (w : WriterM.Writer W A) (arr : list W) :
  WriterM.tell_all w arr
  = WriterM.mkWriter (WriterM.value w)
      (fold_left (combine (WriterM.monoid w)) arr (WriterM.log w))
      (WriterM.monoid w).
Proof.
  unfold WriterM.tell_all. revert w.
  induction arr as [|msg arr IH]; intros w; simpl.
  - now destruct w.
  - now rewrite IH.
Qed.

Lemma fold_combine_from {W} (m : Monoid W) (Hm : Lawful m) (arr : list W) acc :
  fold_left (combine m) arr acc
  = combine m acc (fold_left (combine m) arr (pure m)).
Proof.
  destruct Hm as [Hl Hr Ha]. revert acc.
  induction arr as [|x arr IH]; intros acc; simpl.
  - now rewrite Hr.
  - rewrite IH, (IH (combine m (pure m) x)), Hl. now rewrite Ha.
Qed.
End WriterMore.

(** X21: the two monoids that Monoid.ts exports obey the monoid laws:
    string concatenation with the empty string, and array concatenation
    with the empty array, whichever object [ListMonoid()] returns. *)
Theorem exported_monoids_are_lawful :
  MonoidM.Lawful MonoidM.StringConcatMonoid
  /\ (forall (T : Type) (fresh : nat),
        MonoidM.Lawful (MonoidM.ListMonoid (T:=T) fresh)).
Proof.
  split.
  - split; simpl.
    + reflexivity.
    + apply string_append_empty_r.
    + apply string_append_assoc.
  - intros T fresh. split; simpl.
    + reflexivity.
    + apply app_nil_r.
    + intros x y z. now rewrite app_assoc.
Qed.

(** X22: [tell] in a loop appends the entries from left to right to the
    log, keeping value and monoid.  On a lawful monoid two [tell]s are one
    [tell] of the combined entries, a [tell] of the identity changes
    nothing, and the log after the loop is the old log combined with the
    entries folded from the identity.  From [Writer.of(v,
    StringConcatMonoid)] the loop of the test gives the value [v] and the
    log [arr.reduce((a, b) => a + b, "")]. *)
Theorem writer_tell_appends_in_order :
  forall (W A : Type) (w : WriterM.Writer W A),
    (forall arr : list W,
        WriterM.tell_all w arr
        = WriterM.mkWriter (WriterM.value w)
            (fold_left (MonoidM.combine (WriterM.monoid w)) arr (WriterM.log w))
            (WriterM.monoid w))
    /\ (MonoidM.Lawful (WriterM.monoid w) ->
        (forall a b,
            WriterM.tell (WriterM.tell w a) b
            = WriterM.tell w (MonoidM.combine (WriterM.monoid w) a b))
        /\ WriterM.tell w (MonoidM.pure (WriterM.monoid w)) = w
        /\ (forall arr,
              WriterM.log (WriterM.tell_all w arr)
              = MonoidM.combine (WriterM.monoid w) (WriterM.log w)
                  (fold_left (MonoidM.combine (WriterM.monoid w)) arr
                     (MonoidM.pure (WriterM.monoid w)))))
    /\ (forall (v : A) (arr : list string),
          WriterM.run (WriterM.tell_all
                         (WriterM.of_ v MonoidM.StringConcatMonoid) arr)
          = (v, WriterM.reduce_concat arr)).
Proof.
  intros W A w. split; [|split].
  - apply tell_all_fold.
  - intros Hm. split; [|split].
    + intros a b. unfold WriterM.tell. simpl.
      now rewrite (MonoidM.combine_assoc Hm).
    + unfold WriterM.tell. rewrite (MonoidM.combine_pure_r Hm).
      now destruct w.
    + intros arr. rewrite tell_all_fold. simpl.
      now apply fold_combine_from.
  - intros v arr. now rewrite tell_all_fold.
Qed.

(** Two [tell]s on the string monoid. *)
Lemma writer_tell_appends_in_order_witness :
  WriterM.tell
    (WriterM.tell (WriterM.of_ 1%Z MonoidM.StringConcatMonoid) "TEST1") "TEST2"
  = WriterM.tell (WriterM.of_ 1%Z MonoidM.StringConcatMonoid) "TEST1TEST2".
Proof.
  apply (proj1 (proj1 (proj2 (writer_tell_appends_in_order
                                (WriterM.of_ 1%Z MonoidM.StringConcatMonoid)))
                  StringConcatMonoid_lawful)).
Defined.

(** X23: [Writer.map] keeps the log and the monoid, and it is a functor
    map for all functions, with effects or throws.  When the identity of
    the monoid is a right identity, [map(func)] is [bind] with the
    continuation [(value, make) => make(func(value), monoid.pure)]. *)
Theorem writer_map_functor :
  forall (St V W A B C : Type) (this : WriterM.Writer W A)
         (f : A -> Eff St (Exn V) B) (g : B -> Eff St (Exn V) C) (s : St),
    (forall w s', WriterM.map this f s = (Normal w, s') ->
                  WriterM.log w = WriterM.log this
                  /\ WriterM.monoid w = WriterM.monoid this)
    /\ WriterM.map (V:=V) this (pure_fn (fun x => x)) s = (Normal this, s)
    /\ (let* m1 := WriterM.map this f in WriterM.map m1 g) s
       = WriterM.map this (fun x => let* b := f x in g b) s
    /\ ((forall x, MonoidM.combine (WriterM.monoid this) x
                     (MonoidM.pure (WriterM.monoid this)) = x) ->
        WriterM.map this f s
        = WriterM.bind this
            (fun value make =>
               let* b := f value in
               ret (make B b (MonoidM.pure (WriterM.monoid this)))) s).
Proof.
  intros St V W A B C this f g s. split; [|split; [|split]].
  - intros w s'. unfold WriterM.map, seq.
    destruct (f (WriterM.value this) s) as [[b|e] s1]; [|discriminate].
    unfold ret. intros [= <- <-]. now split.
  - now destruct this.
  - unfold WriterM.map, seq.
    now destruct (f (WriterM.value this) s) as [[b|e] s1].
  - intros Hr. unfold WriterM.map, WriterM.bind, seq.
    destruct (f (WriterM.value this) s) as [[b|e] s1]; [|reflexivity].
    simpl. unfold MonoidM.same. rewrite Nat.eqb_refl. simpl.
    unfold ret. now rewrite Hr.
Qed.

(** [map] on the string monoid, against [bind] with [make]. *)
Lemma writer_map_functor_witness :
  WriterM.map (St:=unit) (V:=unit)
    (WriterM.tell (WriterM.of_ 2%Z MonoidM.StringConcatMonoid) "log")
    (pure_fn (fun v => (v + 1)%Z)) tt
  = WriterM.bind
      (WriterM.tell (WriterM.of_ 2%Z MonoidM.StringConcatMonoid) "log")
      (fun value make =>
         let* b := pure_fn (fun v => (v + 1)%Z) value in
         ret (make Z b (MonoidM.pure MonoidM.StringConcatMonoid))) tt.
Proof.
  apply (proj2 (proj2 (proj2
           (@writer_map_functor unit unit string Z Z Z
              (WriterM.tell (WriterM.of_ 2%Z MonoidM.StringConcatMonoid) "log")
              (pure_fn (fun v => (v + 1)%Z)) (pure_fn (fun v => v)) tt)))).
  intros x. apply string_append_empty_r.
Defined.

(** X24: a Writer never changes monoid: whatever [bind] returns (when its
    check lets it return), whatever a chain of [bind]s returns, and what
    [tell] and the [tell] loop return, is on the monoid object of the
    receiver, which for [Writer.of(v, m)] is [m]. *)
Theorem writer_keeps_its_monoid :
  forall (St V W A B : Type) (this : WriterM.Writer W A) (s : St),
    (forall (func : A -> WriterM.Make W -> Eff St (Exn V) (WriterM.Writer W B))
            w s',
        WriterM.bind this func s = (Normal w, s') ->
        WriterM.monoid w = WriterM.monoid this)
    /\ (forall steps w s',
          WriterM.chain (V:=V) this steps s = (Normal w, s') ->
          WriterM.monoid w = WriterM.monoid this)
    /\ (forall entry, WriterM.monoid (WriterM.tell this entry)
                      = WriterM.monoid this)
    /\ (forall arr, WriterM.monoid (WriterM.tell_all this arr)
                    = WriterM.monoid this)
    /\ (forall (v : A) (m : MonoidM.Monoid W) arr,
          WriterM.monoid (WriterM.tell_all (WriterM.of_ v m) arr) = m).
Proof.
  intros St V W A B this s.
  repeat match goal with |- _ /\ _ => split end.
  - intros func w s' H.
    destruct (writer_bind_normal_inv _ _ _ H) as (result & _ & _ & ->).
    reflexivity.
  - intros steps w s'. rewrite writer_chain. now intros [= <- <-].
  - reflexivity.
  - intros arr. now rewrite tell_all_fold.
  - intros v m arr. now rewrite tell_all_fold.
Qed.

(** The first [bind] of the documentation's example stays on the string
    monoid. *)
Lemma writer_keeps_its_monoid_witness :
  WriterM.monoid
    (WriterM.mkWriter 5%Z "Added 3" MonoidM.StringConcatMonoid)
  = WriterM.monoid (WriterM.of_ 2%Z MonoidM.StringConcatMonoid).
Proof.
  apply (proj1 (@writer_keeps_its_monoid unit unit string Z Z
                  (WriterM.of_ 2%Z MonoidM.StringConcatMonoid) tt)
           (fun value make => ret (make Z (value + 3)%Z "Added 3"))
           (WriterM.mkWriter 5%Z "Added 3" MonoidM.StringConcatMonoid) tt).
  reflexivity.
Defined.

(** ** ADTs *)



(** ** The login script *)

(** X26: [loginUser] checks the password first: the password ["invalid"]
    is [PasswordIncorrect] whatever the user name; it succeeds exactly when
    the password is not ["invalid"] and the user name is neither
    ["unfound"] nor ["admin"], and then returns the given name and password
    and no email, so the [login] of the script carries the default email
    ["hello@world.md"]; a failure of [loginUser] is the failure of
    [login]. *)
Theorem loginUser_outcomes :
  forall (username password : string),
    Login.loginUser username "invalid" = EitherM.Left Login.PasswordIncorrect
    /\ (EitherM.isRight (Login.loginUser username password) = true
        <-> password <> "invalid" /\ username <> "unfound"
            /\ username <> "admin")
    /\ (forall user,
          Login.loginUser username password = EitherM.Right user ->
          user = Login.mkUser username password OptionM.None)
    /\ (forall (St E : Type) (s : St),
          Login.login (E:=E) username password s
          = (Normal
               match Login.loginUser username password with
               | EitherM.Right _ =>
                   EitherM.Right
                     (Login.mkUser username password "hello@world.md")
               | EitherM.Left err => EitherM.Left err
               end, s)).
Proof.
  intros username password. split; [reflexivity|].
  unfold Login.login, Login.loginUser, Login.str_eq.
  destruct (bool_decide (password = "invalid")) eqn:Hp;
    [apply bool_decide_eq_true in Hp | apply bool_decide_eq_false in Hp].
  { repeat split; try discriminate; intuition congruence. }
  destruct (bool_decide (username = "unfound")) eqn:Hu;
    [apply bool_decide_eq_true in Hu | apply bool_decide_eq_false in Hu].
  { repeat split; try discriminate; intuition congruence. }
  destruct (bool_decide (username = "admin")) eqn:Ha;
    [apply bool_decide_eq_true in Ha | apply bool_decide_eq_false in Ha].
  { repeat split; try discriminate; intuition congruence. }
  repeat split; auto.
  intros user [= <-]. reflexivity.
Qed.

(** The call of the script, [loginUser("Omar", "1234")]. *)
Lemma loginUser_outcomes_witness :
  EitherM.isRight (Login.loginUser "Omar" "1234") = true.
Proof.
  apply (proj2 (proj1 (proj2 (loginUser_outcomes "Omar" "1234")))).
  repeat split; discriminate.
Defined.

(** ** List: [filter] through [bind], and the folds as builders *)

(** X27: [List.filter(func)] is [bind] with the function that answers the
    one-element list of [x] when [func(x)] holds and the empty list
    otherwise, for every predicate, whatever it writes or throws. *)
Theorem list_filter_is_bind :
  forall (St E T : Type) (l : ListM.List T) (func : T -> Eff St E bool) (s : St),
    ListM.filter l func s
    = ListM.bind l
        (fun x => let* keep := func x in
                  ret (if keep then ListM.Pair x ListM.Empty else ListM.Empty))
        s.
Proof.
  intros St E T l func. induction l as [h t IH|]; intros s; simpl.
  - unfold seq. destruct (func h s) as [[[|]|e] s1]; simpl.
    + rewrite IH. now destruct (ListM.bind t _ s1) as [[r|e] s2].
    + rewrite IH. now destruct (ListM.bind t _ s1) as [[r|e] s2].
    + reflexivity.
  - reflexivity.
Qed.

(** X28: folding with [Pair] rebuilds the list: [foldRight] from [Empty]
    with [(acc, head) => new Pair(head, acc)] gives the list itself, and
    [foldLeft] with the same function gives the list reversed. *)
Theorem list_folds_rebuild :
  forall (St E T : Type) (l : ListM.List T) (s : St),
    ListM.foldRight (E:=E) l ListM.Empty
      (fun acc head => ret (ListM.Pair head acc)) s
    = (Normal l, s)
    /\ ListM.foldLeft (E:=E) l ListM.Empty
         (fun acc head => ret (ListM.Pair head acc)) s
       = (Normal (ListM.of_list (rev (ListM.to_list l))), s).
Proof.
  intros St E T l s. split.
  - rewrite foldRight_pure. f_equal. f_equal.
    induction l as [h t IH|]; simpl; [now rewrite IH | reflexivity].
  - rewrite list_foldLeft_pure. f_equal. f_equal.
    apply to_list_inj. rewrite to_list_of_list.
    assert (Hgen : forall (xs : list T) (acc : ListM.List T),
               ListM.to_list
                 (fold_left (fun acc head => ListM.Pair head acc) xs acc)
               = rev xs ++ ListM.to_list acc).
    { induction xs as [|x xs IH]; intros acc; simpl; [reflexivity|].
      rewrite IH. simpl. now rewrite <- app_assoc. }
    rewrite Hgen. simpl. apply app_nil_r.
Qed.

(** Witnesses of the statements above that have a premise. *)

Lemma list_filter_keeps_matching_witness :
  exists r,
    ListM.filter (St:=unit) (E:=unit) (ListM.of_list [1; 12; 3; 14]%Z)
      (pure_fn (fun x => (10 <? x)%Z)) tt = (Normal r, tt)
    /\ In 12%Z (ListM.to_list r).
Proof.
  destruct (@list_filter_keeps_matching unit unit Z
              (ListM.of_list [1; 12; 3; 14]%Z) (fun x => (10 <? x)%Z) tt)
    as (r & Hrun & _ & Hin & _).
  exists r. split; [exact Hrun|].
  apply Hin. split; [simpl; auto | reflexivity].
Defined.

Lemma option_fromNullable_none_iff_nullish_witness :
  OptionM.isNone (OptionM.fromNullable (A:=Z) OptionM.undefined) = true.
Proof.
  apply (proj2 (proj1 (option_fromNullable_none_iff_nullish
                         (OptionM.undefined (A:=Z)) 0%Z))).
  right. reflexivity.
Defined.

Lemma try_bind_associative_with_throws_witness :
  TryM.bind (St:=unit) (E:=string) (B:=Z) (TryM.Success 1%Z)
    (fun x => ret (TryM.Success (x + 1)%Z)) tt
  = (Normal (TryM.Success 2%Z), tt).
Proof.
  apply (proj2 (proj2 (try_bind_associative_with_throws string Z Z Z tt)
                  1%Z (fun x => ret (TryM.Success (x + 1)%Z)))).
  eexists _, _. reflexivity.
Defined.
